(** * AquaDepth: the sensor data processing pipeline of [src/lib/sensorProcessing.ts]

    A shallow embedding of the moving-average filter, the statistics helper,
    the z-score outlier test and [processSensorData], with the properties the
    specification states about them.

    JavaScript numbers are modelled as real numbers extended with the IEEE 754
    special values [Infinity], [-Infinity] and [NaN].  Arithmetic on finite
    values is exact: rounding and overflow of binary64 are abstracted away.
    What the arithmetic does at the special values (division by zero,
    [Infinity - Infinity], comparison with [NaN]) follows IEEE 754, because the
    outlier test depends on it.  Zero is unsigned; a finite non-zero value
    divided by zero takes the sign of the numerator, which is what the code
    observes since every zero divisor it can produce is [+0].

    Module [Binary64] embeds the statistics helper and the outlier test a
    second time, over IEEE 754 binary64 with rounding to nearest even, which
    is what the code runs on; it computes, and shows where rounding and
    underflow make the code differ from exact arithmetic. *)

From Stdlib Require Import Reals Lra Lia List ZArith Bool String.
From Stdlib Require Import SpecFloat.
Import ListNotations.

Open Scope R_scope.

(** ** JavaScript numbers *)

Module JsNumber.

Inductive number : Type :=
| Fin (r : R)
| PInf
| NInf
| NaN.

(** The infinity with the sign of a non-zero real. *)
Definition inf_of_sign (r : R) : number :=
  if Rlt_dec 0 r then PInf else NInf.

Definition neg (a : number) : number :=
  match a with
  | Fin x => Fin (- x)
  | PInf => NInf
  | NInf => PInf
  | NaN => NaN
  end.

(** [a + b] *)
Definition add (a b : number) : number :=
  match a, b with
  | NaN, _ | _, NaN => NaN
  | Fin x, Fin y => Fin (x + y)
  | PInf, NInf | NInf, PInf => NaN
  | PInf, _ | _, PInf => PInf
  | NInf, _ | _, NInf => NInf
  end.

(** [a - b] *)
Definition sub (a b : number) : number := add a (neg b).

(** [a * b] *)
Definition mul (a b : number) : number :=
  match a, b with
  | NaN, _ | _, NaN => NaN
  | Fin x, Fin y => Fin (x * y)
  | Fin x, PInf | PInf, Fin x =>
      if Req_dec_T x 0 then NaN else inf_of_sign x
  | Fin x, NInf | NInf, Fin x =>
      if Req_dec_T x 0 then NaN else inf_of_sign (- x)
  | PInf, PInf | NInf, NInf => PInf
  | PInf, NInf | NInf, PInf => NInf
  end.

(** [a / b] *)
Definition div (a b : number) : number :=
  match a, b with
  | NaN, _ | _, NaN => NaN
  | Fin x, Fin y =>
      if Req_dec_T y 0
      then (if Req_dec_T x 0 then NaN else inf_of_sign x)
      else Fin (x / y)
  | Fin _, PInf | Fin _, NInf => Fin 0
  | PInf, Fin y => if Rlt_dec y 0 then NInf else PInf
  | NInf, Fin y => if Rlt_dec y 0 then PInf else NInf
  | PInf, PInf | PInf, NInf | NInf, PInf | NInf, NInf => NaN
  end.

(** [a > b]: false as soon as one side is [NaN]. *)
Definition gt (a b : number) : bool :=
  match a, b with
  | NaN, _ | _, NaN => false
  | Fin x, Fin y => if Rlt_dec y x then true else false
  | PInf, PInf | NInf, NInf => false
  | PInf, _ => true
  | _, PInf => false
  | _, NInf => true
  | NInf, _ => false
  end.

(** [Math.abs] *)
Definition Math_abs (a : number) : number :=
  match a with
  | Fin x => Fin (Rabs x)
  | PInf | NInf => PInf
  | NaN => NaN
  end.

(** [Math.sqrt] *)
Definition Math_sqrt (a : number) : number :=
  match a with
  | Fin x => if Rlt_dec x 0 then NaN else Fin (sqrt x)
  | PInf => PInf
  | NInf | NaN => NaN
  end.

(** [Math.pow] at a natural exponent: [Math.pow(x, 0)] is 1 for every [x]. *)
Fixpoint Math_pow (a : number) (n : nat) : number :=
  match n with
  | O => Fin 1
  | S n' => mul a (Math_pow a n')
  end.

(** [Math.min] of two arguments: [NaN] as soon as one of them is. *)
Definition Math_min (a b : number) : number :=
  match a, b with
  | NaN, _ | _, NaN => NaN
  | NInf, _ | _, NInf => NInf
  | PInf, c | c, PInf => c
  | Fin x, Fin y => Fin (Rmin x y)
  end.

(** The [length] of an array, as a number. *)
Definition length_of {A : Type} (l : list A) : number :=
  Fin (INR (List.length l)).

(** [arr.reduce((a, b) => f(a, b), init)] *)
Definition reduce {A B : Type} (f : B -> A -> B) (init : B) (arr : list A) : B :=
  fold_left f arr init.

Definition is_finite (a : number) : bool :=
  match a with Fin _ => true | _ => false end.

End JsNumber.

Import JsNumber.

(** ** Data model *)

Record RawSensorData : Type := {
  raw_depth : number;
  raw_turbidity : number;
  raw_temperature : number;
  voltage : number;
  battery_level : number;
  signal_strength : number
}.

Record ProcessedSensorData : Type := {
  depth : number;
  turbidity : number;
  temperature : number;
  sediment_level : number;
  quality_score : number;
  is_outlier : bool
}.

(** ** Moving average filter *)

Record MovingAverageFilter : Type := {
  windowSize : number;
  values : list number
}.

(** ** Errors and completions *)

(** The error object of a store response. *)
Record PostgrestError : Type := {
  message : string;
  code : string
}.

(** What a [throw] carries. *)
Inductive Thrown : Type :=
| StoreFailure (e : PostgrestError)
| OtherFailure (msg : string).

(** An evaluation either completes normally or throws; an [async] function
    whose body throws returns a rejected promise. *)
Inductive Completion (A : Type) : Type :=
| Normal (a : A)
| Throw (err : Thrown).
Arguments Normal {A} a.
Arguments Throw {A} err.

Definition bind {A B : Type} (c : Completion A) (k : A -> Completion B)
  : Completion B :=
  match c with
  | Normal a => k a
  | Throw e => Throw e
  end.

Notation "x <- c ;; k" := (bind c (fun x => k))
  (at level 61, c at next level, right associativity).
Notation "' pat <- c ;; k" := (bind c (fun x => match x with pat => k end))
  (at level 61, pat pattern, c at next level, right associativity).

Inductive Promise (A : Type) : Type :=
| Resolved (a : A)
| Rejected (reason : Thrown).
Arguments Resolved {A} a.
Arguments Rejected {A} reason.

Definition async {A : Type} (body : Completion A) : Promise A :=
  match body with
  | Normal a => Resolved a
  | Throw e => Rejected e
  end.

Definition await {A : Type} (p : Promise A) : Completion A :=
  match p with
  | Resolved a => Normal a
  | Rejected e => Throw e
  end.

Module MovingAverage.

(** [constructor(windowSize)]: stores the window size, starts empty; the body
    has no [throw]. *)
Definition constructor (w : number) : Completion MovingAverageFilter :=
  Normal {| windowSize := w; values := [] |}.

(** The filter object [new MovingAverageFilter(w)] evaluates to. *)
Definition fresh (w : number) : MovingAverageFilter :=
  {| windowSize := w; values := [] |}.

(** [this.values.shift()] *)
Definition shift (vs : list number) : list number := tl vs.

(** [process(value)]: the filter after the call, and the returned mean. *)
Definition process (f : MovingAverageFilter) (value : number)
  : MovingAverageFilter * number :=
  let pushed := values f ++ [value] in
  let kept :=
    if gt (length_of pushed) (windowSize f) then shift pushed else pushed in
  ({| windowSize := windowSize f; values := kept |},
   div (reduce add (Fin 0) kept) (length_of kept)).

(** Successive [process] calls on one instance: the final filter and the
    outputs in call order. *)
Fixpoint feed (f : MovingAverageFilter) (inputs : list number)
  : MovingAverageFilter * list number :=
  match inputs with
  | [] => (f, [])
  | v :: rest =>
      let '(f1, out) := process f v in
      let '(f2, outs) := feed f1 rest in
      (f2, out :: outs)
  end.

End MovingAverage.

Import MovingAverage.

(** ** Outlier detection and statistics *)

(** [isOutlier(value, mean, stdDev, threshold = 3)] *)
Definition isOutlier_with (value mean stdDev threshold : number) : bool :=
  gt (Math_abs (div (sub value mean) stdDev)) threshold.

Definition isOutlier (value mean stdDev : number) : bool :=
  isOutlier_with value mean stdDev (Fin 3).

Record Stats : Type := {
  mean : number;
  stdDev : number
}.

(** [calculateStats(values)] *)
Definition calculateStats (vals : list number) : Stats :=
  let m := div (reduce add (Fin 0) vals) (length_of vals) in
  let variance :=
    div (reduce (fun a b => add a (Math_pow (sub b m) 2)) (Fin 0) vals)
        (length_of vals) in
  {| mean := m; stdDev := Math_sqrt variance |}.

(** ** Calibration store *)

(** A row of [sensor_calibration] ([database.types.ts]); [created_at] is the
    creation instant, the calibration dates and the formula text are not read
    by the pipeline. *)
Record CalibrationRow : Type := {
  id : Z;
  created_at : Z;
  sensor_id : Z;
  parameter : string;
  offset_value : number;
  scale_factor : number
}.

(** What awaiting a query gives: [{ data, error }]. *)
Record PostgrestResponse (A : Type) : Type := {
  data : option A;
  error : option PostgrestError
}.
Arguments data {A} _.
Arguments error {A} _.

(** Modelled from the spec: the store behind the [supabase] client.
    [src/lib/supabase.ts] only creates the client from the configured URL
    and key; what a query answers is decided by the store and the client
    library, which are not among the sources.  The store either answers from
    its [sensor_calibration] table or fails with a transient I/O error; as
    at every call site of the repository, the awaited query resolves to a
    response whose [error] field reports the failure and whose [data] is
    then [null]. *)
Inductive Supabase : Type :=
| Reachable (sensor_calibration : list CalibrationRow)
| Failing (e : PostgrestError).

Module Query.

(** [.eq('sensor_id', sensorId)] *)
Definition eq_sensor_id (sensorId : Z) (rows : list CalibrationRow)
  : list CalibrationRow :=
  filter (fun r => Z.eqb (sensor_id r) sensorId) rows.

Fixpoint insert_desc (r : CalibrationRow) (sorted : list CalibrationRow)
  : list CalibrationRow :=
  match sorted with
  | [] => [r]
  | r' :: rest =>
      if Z.leb (created_at r') (created_at r)
      then r :: r' :: rest
      else r' :: insert_desc r rest
  end.

(** [.order('created_at', { ascending: false })] *)
Definition order_created_at_desc (rows : list CalibrationRow)
  : list CalibrationRow :=
  fold_right insert_desc [] rows.

(** [.limit(1)] *)
Definition limit (n : nat) (rows : list CalibrationRow) : list CalibrationRow :=
  firstn n rows.

(** The calibration query of [processSensorData], awaited. *)
Definition latest_calibration (supabase : Supabase) (sensorId : Z)
  : Promise (PostgrestResponse (list CalibrationRow)) :=
  match supabase with
  | Reachable table =>
      Resolved {| data := Some (limit 1 (order_created_at_desc
                                           (eq_sensor_id sensorId table)));
                  error := None |}
  | Failing e => Resolved {| data := None; error := Some e |}
  end.

End Query.

(** ** The reading processor *)

(** The two fields [processSensorData] reads from its calibration object. *)
Record Calibration : Type := {
  cal_offset_value : number;
  cal_scale_factor : number
}.

(** [calibrationData?.[0]] *)
Definition first_row (calibrationData : option (list CalibrationRow))
  : option CalibrationRow :=
  match calibrationData with
  | None => None
  | Some rows => nth_error rows 0
  end.

(** [calibrationData?.[0] || { offset_value: 0, scale_factor: 1 }]: a row
    object is truthy, [undefined] is not. *)
Definition calibration_or_default (calibrationData : option (list CalibrationRow))
  : Calibration :=
  match first_row calibrationData with
  | Some row => {| cal_offset_value := offset_value row;
                   cal_scale_factor := scale_factor row |}
  | None => {| cal_offset_value := Fin 0; cal_scale_factor := Fin 1 |}
  end.

(** The body of [processSensorData] after the calibration object is known. *)
Definition process_with (calibration : Calibration) (rawData : RawSensorData)
  : Completion ProcessedSensorData :=
  depthFilter <- constructor (Fin 5) ;;
  turbidityFilter <- constructor (Fin 5) ;;
  temperatureFilter <- constructor (Fin 3) ;;
  let filteredDepth := snd (process depthFilter (raw_depth rawData)) in
  let calibratedDepth :=
    add (mul filteredDepth (cal_scale_factor calibration))
        (cal_offset_value calibration) in
  let filteredTurbidity := snd (process turbidityFilter (raw_turbidity rawData)) in
  let filteredTemperature :=
    snd (process temperatureFilter (raw_temperature rawData)) in
  let sedimentLevel :=
    add (mul filteredTurbidity (Fin 0.8)) (mul calibratedDepth (Fin 0.2)) in
  let qualityScore :=
    Math_min (Fin 1)
      (add (mul (div (signal_strength rawData) (Fin 100)) (Fin 0.7))
           (mul (div (battery_level rawData) (Fin 100)) (Fin 0.3))) in
  let stats := calculateStats [filteredDepth; raw_depth rawData] in
  let isDepthOutlier := isOutlier (raw_depth rawData) (mean stats) (stdDev stats) in
  Normal {| depth := calibratedDepth;
            turbidity := filteredTurbidity;
            temperature := filteredTemperature;
            sediment_level := sedimentLevel;
            quality_score := qualityScore;
            is_outlier := isDepthOutlier |}.

(** [processSensorData(rawData, sensorId)]; only the [data] field of the
    response is destructured. *)
Definition processSensorData (supabase : Supabase) (rawData : RawSensorData)
    (sensorId : Z) : Promise ProcessedSensorData :=
  async (
    response <- await (Query.latest_calibration supabase sensorId) ;;
    let calibrationData := data response in
    process_with (calibration_or_default calibrationData) rawData).

(** ** Named intermediate values of the reading processor *)

Definition filteredDepth (rawData : RawSensorData) : number :=
  snd (process (fresh (Fin 5)) (raw_depth rawData)).

Definition filteredTurbidity (rawData : RawSensorData) : number :=
  snd (process (fresh (Fin 5)) (raw_turbidity rawData)).

Definition filteredTemperature (rawData : RawSensorData) : number :=
  snd (process (fresh (Fin 3)) (raw_temperature rawData)).

Definition calibratedDepth (calibration : Calibration) (rawData : RawSensorData)
  : number :=
  add (mul (filteredDepth rawData) (cal_scale_factor calibration))
      (cal_offset_value calibration).

Definition identity_calibration : Calibration :=
  {| cal_offset_value := Fin 0; cal_scale_factor := Fin 1 |}.

(** The z-score the outlier test compares with its threshold. *)
Definition z_score (value m sd : number) : number :=
  Math_abs (div (sub value m) sd).

(** ** Notions used to state the quality-score properties *)

(** A non-negative number: a finite one that is at least 0, or [Infinity]. *)
Definition non_negative (a : number) : Prop :=
  match a with
  | Fin x => 0 <= x
  | PInf => True
  | NInf | NaN => False
  end.

Definition weighted_health (signal battery : number) : number :=
  add (mul (Fin 0.7) (div signal (Fin 100)))
      (mul (Fin 0.3) (div battery (Fin 100))).

(** A reading whose signal strength and battery level exceed 100. *)
Definition sample_reading : RawSensorData :=
  {| raw_depth := Fin 100;
     raw_turbidity := Fin 5;
     raw_temperature := Fin 20;
     voltage := Fin 12;
     battery_level := Fin 120;
     signal_strength := Fin 150 |}.

(** ** Reference notions the properties are stated with *)

Module Reference.

(** The last [n] elements of a sequence (all of it when it is shorter). *)
Definition last_n {A : Type} (n : nat) (l : list A) : list A :=
  skipn (List.length l - n) l.

Definition total (l : list R) : R := fold_right Rplus 0 l.

Definition arithmetic_mean (l : list R) : R :=
  total l / INR (List.length l).

(** Population variance: the squared deviations are divided by [N]. *)
Definition population_variance (l : list R) : R :=
  total (map (fun x => Rsqr (x - arithmetic_mean l)) l) / INR (List.length l).

Definition population_std_dev (l : list R) : R :=
  sqrt (population_variance l).


End Reference.

Import Reference.

(** The mean as [process] and [calculateStats] write it: the [reduce] sum
    divided by the length. *)
Definition reduce_mean (vals : list number) : number :=
  div (reduce add (Fin 0) vals) (length_of vals).

(** For each call [k = 1, 2, ...], the summary [m] of the last [min k N] of
    the first [k] inputs. *)
Definition window_outputs {A B : Type} (m : list A -> B) (N : nat) (xs : list A)
  : list B :=
  map (fun k => m (last_n (Nat.min k N) (firstn k xs)))
      (seq 1 (List.length xs)).

Definition window_means (N : nat) (xs : list R) : list R :=
  window_outputs arithmetic_mean N xs.

(** ** The synthetic data generator *)

(** [Math.sin]: undefined at the infinities. *)
Definition Math_sin (a : number) : number :=
  match a with
  | Fin x => Fin (sin x)
  | PInf | NInf | NaN => NaN
  end.

(** [Math.PI] *)
Definition Math_PI : number := Fin PI.

Module Random.

(** The values the successive calls of [Math.random] return. *)
Definition Entropy : Type := nat -> R.

(** The entropy left after [k] calls. *)
Definition drop (k : nat) (e : Entropy) : Entropy := fun n => e (k + n)%nat.

(** Every call of [Math.random] returns a value in [0, 1). *)
Definition in_unit_range (e : Entropy) : Prop := forall n, 0 <= e n < 1.

(** [Math.random()] *)
Definition Math_random (e : Entropy) : number * Entropy :=
  (Fin (e 0%nat), drop 1 e).

(** [Array.from({ length: n }, () => f())]: the callback is called [n] times,
    for the indices in increasing order. *)
Fixpoint Array_from {A : Type} (n : nat) (f : Entropy -> A * Entropy)
    (e : Entropy) : list A * Entropy :=
  match n with
  | O => ([], e)
  | S n' =>
      let '(a, e1) := f e in
      let '(rest, e2) := Array_from n' f e1 in
      (a :: rest, e2)
  end.

End Random.

Import Random.

(** [addSensorNoise(value, noiseFactor)] *)
Definition addSensorNoise (value noiseFactor : number) (e : Entropy)
  : number * Entropy :=
  let '(terms, e1) :=
    Array_from 6 (fun e0 => let '(r, e0') := Math_random e0 in
                            (sub r (Fin 0.5), e0')) e in
  let noise := reduce add (Fin 0) terms in
  (mul value (add (Fin 1) (mul noiseFactor noise)), e1).

(** The default [noiseFactor = 0.02]. *)
Definition default_noiseFactor : number := Fin 0.02.

Module BaseValues.

Record t : Type := {
  depth : number;
  turbidity : number;
  temperature : number
}.

End BaseValues.

(** [Math.sin((hourOfDay / 24) * 2 * Math.PI)] *)
Definition dailyFactor_of (hourOfDay : number) : number :=
  Math_sin (mul (mul (div hourOfDay (Fin 24)) (Fin 2)) Math_PI).

(** [generateRealisticSensorData(baseValues)], given the hour
    [new Date().getHours()] reads from the clock; the properties of the object
    literal are evaluated in source order. *)
Definition generateRealisticSensorData (clock_hours : Z)
    (baseValues : BaseValues.t) (e : Entropy) : RawSensorData * Entropy :=
  let hourOfDay := Fin (IZR clock_hours) in
  let dailyFactor := dailyFactor_of hourOfDay in
  let '(d, e1) :=
    addSensorNoise
      (mul (BaseValues.depth baseValues)
           (add (Fin 1) (mul (Fin 0.05) dailyFactor)))
      default_noiseFactor e in
  let '(tu, e2) :=
    addSensorNoise
      (mul (BaseValues.turbidity baseValues)
           (add (Fin 1) (mul (Fin 0.1) dailyFactor)))
      default_noiseFactor e1 in
  let '(te, e3) :=
    addSensorNoise
      (add (BaseValues.temperature baseValues) (mul (Fin 2) dailyFactor))
      default_noiseFactor e2 in
  let '(v, e4) := addSensorNoise (Fin 12) (Fin 0.01) e3 in
  let '(b, e5) :=
    addSensorNoise (add (Fin 85) (mul (Fin 5) dailyFactor)) (Fin 0.005) e4 in
  let '(s, e6) :=
    addSensorNoise (sub (Fin 90) (mul (Fin 5) (Math_abs dailyFactor)))
                   (Fin 0.02) e5 in
  ({| raw_depth := d;
      raw_turbidity := tu;
      raw_temperature := te;
      voltage := v;
      battery_level := b;
      signal_strength := s |}, e6).

(** The sum of the six centred draws one [addSensorNoise] call makes. *)
Definition noise_sum (e : Entropy) : R :=
  (e 0%nat - 0.5) + (e 1%nat - 0.5) + (e 2%nat - 0.5)
  + (e 3%nat - 0.5) + (e 4%nat - 0.5) + (e 5%nat - 0.5).

(** ** Storing a processed reading *)

(** The object [{ sensor_id: sensorId, ...rawData }]. *)
Record RawInsert : Type := {
  ri_sensor_id : Z;
  ri_raw : RawSensorData
}.

(** The object [{ raw_reading_id, sensor_id, ...processedData,
    processing_method }]. *)
Record ProcessedInsert : Type := {
  pi_raw_reading_id : Z;
  pi_sensor_id : Z;
  pi_processed : ProcessedSensorData;
  pi_processing_method : string
}.

(** A row of [sensor_raw_data] ([database.types.ts]). *)
Record RawRow : Type := {
  raw_row_id : Z;
  raw_row_created_at : Z;
  raw_row_sensor_id : Z;
  raw_row_data : RawSensorData
}.

(** A row of [sensor_processed_data] ([database.types.ts]). *)
Record ProcessedRow : Type := {
  processed_row_id : Z;
  processed_row_created_at : Z;
  processed_row_raw_reading_id : Z;
  processed_row_sensor_id : Z;
  processed_row_data : ProcessedSensorData;
  processed_row_method : string
}.

Section StoreSensorData.

(** The client is a parameter: a backend state and the two requests
    [storeSensorData] awaits, each giving a response and the backend after
    it. *)
Variable Backend : Type.

(** [supabase.from('sensor_raw_data').insert(rows).select().single()] *)
Variable insert_raw_returning :
  list RawInsert -> Backend -> PostgrestResponse RawRow * Backend.

(** [supabase.from('sensor_processed_data').insert(rows)] *)
Variable insert_processed :
  list ProcessedInsert -> Backend -> PostgrestResponse unit * Backend.

(** [storeSensorData(rawData, processedData, sensorId)]: the settled promise
    and the backend it leaves.  Reading [rawDataRecord.id] when the response
    has neither error nor row is a [TypeError]. *)
Definition storeSensorData (rawData : RawSensorData)
    (processedData : ProcessedSensorData) (sensorId : Z) (backend : Backend)
  : Promise unit * Backend :=
  let '(response1, backend1) :=
    insert_raw_returning
      [{| ri_sensor_id := sensorId; ri_raw := rawData |}] backend in
  match error response1 with
  | Some rawError => (Rejected (StoreFailure rawError), backend1)
  | None =>
      match data response1 with
      | None => (Rejected (OtherFailure "TypeError"), backend1)
      | Some rawDataRecord =>
          let '(response2, backend2) :=
            insert_processed
              [{| pi_raw_reading_id := raw_row_id rawDataRecord;
                  pi_sensor_id := sensorId;
                  pi_processed := processedData;
                  pi_processing_method := "moving_average" |}] backend1 in
          match error response2 with
          | Some processedError => (Rejected (StoreFailure processedError), backend2)
          | None => (Resolved tt, backend2)
          end
      end
  end.

End StoreSensorData.

(** Modelled from the spec: the storage collaborator behind the client, which
    is not among the sources, with the two tables of the migration
    [20250328160133_patient_ember.sql].  A served insert appends rows with
    identifiers taken from the table's identity sequence and the current
    time; a request that meets an outage changes nothing and answers with the
    error.  [outages] lists what the coming requests meet, [None] standing
    for a served request; an exhausted list serves everything. *)
Record Database : Type := {
  sensor_raw_data : list RawRow;
  sensor_processed_data : list ProcessedRow;
  next_raw_id : Z;
  next_processed_id : Z;
  current_time : Z;
  outages : list (option PostgrestError)
}.

Module InMemory.

Definition after_request (db : Database) : Database :=
  {| sensor_raw_data := sensor_raw_data db;
     sensor_processed_data := sensor_processed_data db;
     next_raw_id := next_raw_id db;
     next_processed_id := next_processed_id db;
     current_time := current_time db;
     outages := tl (outages db) |}.

(** What the next request meets. *)
Definition next_outage (db : Database) : option PostgrestError :=
  match outages db with
  | Some e :: _ => Some e
  | _ => None
  end.

Fixpoint number_raw (first_id created : Z) (rows : list RawInsert)
  : list RawRow :=
  match rows with
  | [] => []
  | r :: rest =>
      {| raw_row_id := first_id;
         raw_row_created_at := created;
         raw_row_sensor_id := ri_sensor_id r;
         raw_row_data := ri_raw r |}
      :: number_raw (first_id + 1) created rest
  end.

Fixpoint number_processed (first_id created : Z) (rows : list ProcessedInsert)
  : list ProcessedRow :=
  match rows with
  | [] => []
  | r :: rest =>
      {| processed_row_id := first_id;
         processed_row_created_at := created;
         processed_row_raw_reading_id := pi_raw_reading_id r;
         processed_row_sensor_id := pi_sensor_id r;
         processed_row_data := pi_processed r;
         processed_row_method := pi_processing_method r |}
      :: number_processed (first_id + 1) created rest
  end.

(** The error [.single()] answers with when the result is not one row. *)
Definition not_a_single_row : PostgrestError :=
  {| message := "JSON object requested, multiple (or no) rows returned";
     code := "PGRST116" |}.

Definition insert_raw_returning (rows : list RawInsert) (db : Database)
  : PostgrestResponse RawRow * Database :=
  match next_outage db with
  | Some e => ({| data := None; error := Some e |}, after_request db)
  | None =>
      let inserted := number_raw (next_raw_id db) (current_time db) rows in
      let db' :=
        {| sensor_raw_data := sensor_raw_data db ++ inserted;
           sensor_processed_data := sensor_processed_data db;
           next_raw_id := next_raw_id db + Z.of_nat (List.length rows);
           next_processed_id := next_processed_id db;
           current_time := current_time db;
           outages := tl (outages db) |} in
      match inserted with
      | [row] => ({| data := Some row; error := None |}, db')
      | _ => ({| data := None; error := Some not_a_single_row |}, db')
      end
  end.

Definition insert_processed (rows : list ProcessedInsert) (db : Database)
  : PostgrestResponse unit * Database :=
  match next_outage db with
  | Some e => ({| data := None; error := Some e |}, after_request db)
  | None =>
      ({| data := None; error := None |},
       {| sensor_raw_data := sensor_raw_data db;
          sensor_processed_data :=
            sensor_processed_data db
            ++ number_processed (next_processed_id db) (current_time db) rows;
          next_raw_id := next_raw_id db;
          next_processed_id := next_processed_id db + Z.of_nat (List.length rows);
          current_time := current_time db;
          outages := tl (outages db) |})
  end.

(** [storeSensorData] against the in-memory database. *)
Definition store (rawData : RawSensorData) (processedData : ProcessedSensorData)
    (sensorId : Z) (db : Database) : Promise unit * Database :=
  storeSensorData Database insert_raw_returning insert_processed
    rawData processedData sensorId db.

End InMemory.

(** Every processed row refers to a stored raw row of the same sensor. *)
Definition references_resolve (db : Database) : Prop :=
  forall p, In p (sensor_processed_data db) ->
    exists r, In r (sensor_raw_data db)
              /\ raw_row_id r = processed_row_raw_reading_id p
              /\ raw_row_sensor_id r = processed_row_sensor_id p.

(** Raw rows without a processed row. *)
Definition orphan_raw_rows (db : Database) : list RawRow :=
  filter (fun r =>
            negb (existsb (fun p => Z.eqb (processed_row_raw_reading_id p)
                                          (raw_row_id r))
                          (sensor_processed_data db)))
         (sensor_raw_data db).

(** The rows a served [storeSensorData] call writes. *)
Definition stored_raw_row (rawData : RawSensorData) (sensorId : Z)
    (db : Database) : RawRow :=
  {| raw_row_id := next_raw_id db;
     raw_row_created_at := current_time db;
     raw_row_sensor_id := sensorId;
     raw_row_data := rawData |}.

Definition stored_processed_row (processedData : ProcessedSensorData)
    (sensorId : Z) (db : Database) : ProcessedRow :=
  {| processed_row_id := next_processed_id db;
     processed_row_created_at := current_time db;
     processed_row_raw_reading_id := next_raw_id db;
     processed_row_sensor_id := sensorId;
     processed_row_data := processedData;
     processed_row_method := "moving_average" |}.

(** ** The seed script's processing shortcut *)

(** The object [processRawData] of [scripts/seed-sensor-data.ts] returns. *)
Record SeededProcessed : Type := {
  seeded_data : ProcessedSensorData;
  seeded_processing_method : string
}.

(** [processRawData(rawData, calibration)] *)
Definition processRawData (rawData : RawSensorData) (calibration : Calibration)
  : SeededProcessed :=
  let depth_ :=
    add (mul (raw_depth rawData) (cal_scale_factor calibration))
        (cal_offset_value calibration) in
  let turbidity_ := raw_turbidity rawData in
  let temperature_ := raw_temperature rawData in
  let sedimentLevel := add (mul turbidity_ (Fin 0.8)) (mul depth_ (Fin 0.2)) in
  let qualityScore :=
    Math_min (Fin 1)
      (add (mul (div (signal_strength rawData) (Fin 100)) (Fin 0.7))
           (mul (div (battery_level rawData) (Fin 100)) (Fin 0.3))) in
  {| seeded_data :=
       {| depth := depth_;
          turbidity := turbidity_;
          temperature := temperature_;
          sediment_level := sedimentLevel;
          quality_score := qualityScore;
          is_outlier := false |};
     seeded_processing_method := "moving_average" |}.

(** Inputs to try the storing properties on: an error, a processed reading
    and a database that holds one reading already and meets the given
    outages. *)
Definition fetch_failed : PostgrestError :=
  {| message := "TypeError: fetch failed"; code := "" |}.

Definition sample_processed : ProcessedSensorData :=
  seeded_data (processRawData sample_reading identity_calibration).

Definition sample_database (script : list (option PostgrestError)) : Database :=
  {| sensor_raw_data :=
       [{| raw_row_id := 1; raw_row_created_at := 900;
           raw_row_sensor_id := 7; raw_row_data := sample_reading |}];
     sensor_processed_data :=
       [{| processed_row_id := 1; processed_row_created_at := 900;
           processed_row_raw_reading_id := 1; processed_row_sensor_id := 7;
           processed_row_data := sample_processed;
           processed_row_method := "moving_average" |}];
     next_raw_id := 2;
     next_processed_id := 2;
     current_time := 1000;
     outages := script |}.

(** The head of a list is created no earlier than the rest. *)
Definition head_is_latest (l : list CalibrationRow) : Prop :=
  match l with
  | [] => True
  | h :: rest => forall x, In x rest -> (created_at x <= created_at h)%Z
  end.

(** ** The statistics helper and the outlier test over binary64 *)

Module Binary64.

(** An IEEE 754 binary64 value: 53 bits of precision, exponents up to 1024. *)
Definition float64 : Type := spec_float.
Definition prec : Z := 53.
Definition emax : Z := 1024.

Definition add (a b : float64) : float64 := SFadd prec emax a b.
Definition sub (a b : float64) : float64 := SFsub prec emax a b.
Definition mul (a b : float64) : float64 := SFmul prec emax a b.
Definition div (a b : float64) : float64 := SFdiv prec emax a b.

(** [a > b] *)
Definition gt (a b : float64) : bool := SFltb b a.

Definition Math_abs (a : float64) : float64 := SFabs a.
Definition Math_sqrt (a : float64) : float64 := SFsqrt prec emax a.

(** The binary64 value of an integer, rounded to nearest even. *)
Definition of_Z (z : Z) : float64 := binary_normalize prec emax z 0 false.

(** The power of two [2 ** e]. *)
Definition pow2 (e : Z) : float64 := SFldexp prec emax (of_Z 1) e.

Fixpoint Math_pow (a : float64) (n : nat) : float64 :=
  match n with
  | O => of_Z 1
  | S n' => mul a (Math_pow a n')
  end.

Definition length_of {A : Type} (l : list A) : float64 :=
  of_Z (Z.of_nat (List.length l)).

Definition reduce {A B : Type} (f : B -> A -> B) (init : B) (arr : list A) : B :=
  fold_left f arr init.

Definition is_finite (a : float64) : bool :=
  match a with
  | S754_zero _ | S754_finite _ _ _ => true
  | S754_infinity _ | S754_nan => false
  end.

Record Stats : Type := {
  mean : float64;
  stdDev : float64
}.

(** [calculateStats(values)] *)
Definition calculateStats (vals : list float64) : Stats :=
  let m := div (reduce add (of_Z 0) vals) (length_of vals) in
  let variance :=
    div (reduce (fun a b => add a (Math_pow (sub b m) 2)) (of_Z 0) vals)
        (length_of vals) in
  {| mean := m; stdDev := Math_sqrt variance |}.

(** [isOutlier(value, mean, stdDev, threshold = 3)] *)
Definition isOutlier_with (value mean stdDev threshold : float64) : bool :=
  gt (Math_abs (div (sub value mean) stdDev)) threshold.

Definition isOutlier (value mean stdDev : float64) : bool :=
  isOutlier_with value mean stdDev (of_Z 3).

End Binary64.

(** ** Arithmetic of numbers *)

Section NumberFacts.

Lemma div_fin (x y : R) : y <> 0 -> div (Fin x) (Fin y) = Fin (x / y).
Proof.
  intros Hy. unfold div. destruct (Req_dec_T y 0) as [E | _]; [contradiction | reflexivity].
Qed.

Lemma div_zero_by_zero : div (Fin 0) (Fin 0) = NaN.
Proof.
  unfold div. destruct (Req_dec_T 0 0) as [_ | N]; [reflexivity | exfalso; apply N; reflexivity].
Qed.

Lemma div_by_length (x : R) (n : nat) :
  (0 < n)%nat -> div (Fin x) (Fin (INR n)) = Fin (x / INR n).
Proof.
  intros Hn. apply div_fin. apply not_0_INR. lia.
Qed.

Lemma gt_fin (x y : R) : gt (Fin x) (Fin y) = true <-> y < x.
Proof.
  unfold gt. destruct (Rlt_dec y x); split; intros; auto; try discriminate; contradiction.
Qed.

Lemma gt_lengths (a b : nat) : gt (Fin (INR a)) (Fin (INR b)) = (b <? a)%nat.
Proof.
  unfold gt. destruct (Rlt_dec (INR b) (INR a)) as [L | L]; symmetry.
  - apply Nat.ltb_lt. now apply INR_lt.
  - apply Nat.ltb_ge. apply INR_le. lra.
Qed.

Lemma mul_comm (a b : number) : mul a b = mul b a.
Proof.
  destruct a, b; simpl; try reflexivity. f_equal. apply Rmult_comm.
Qed.

Lemma add_comm (a b : number) : add a b = add b a.
Proof.
  destruct a, b; simpl; try reflexivity. f_equal. apply Rplus_comm.
Qed.

Lemma mul_one_r (a : number) : mul a (Fin 1) = a.
Proof.
  destruct a; simpl.
  - f_equal. lra.
  - destruct (Req_dec_T 1 0); [lra |]. unfold inf_of_sign.
    destruct (Rlt_dec 0 1); [reflexivity | lra].
  - destruct (Req_dec_T 1 0); [lra |]. unfold inf_of_sign.
    destruct (Rlt_dec 0 (- (1))); [lra | reflexivity].
  - reflexivity.
Qed.

Lemma add_zero_r (a : number) : add a (Fin 0) = a.
Proof.
  destruct a; simpl; try reflexivity. f_equal. lra.
Qed.

Lemma add_zero_l (a : number) : add (Fin 0) a = a.
Proof.
  rewrite add_comm. apply add_zero_r.
Qed.

Lemma div_one (a : number) : div a (Fin 1) = a.
Proof.
  destruct a; simpl; try reflexivity.
  - destruct (Req_dec_T 1 0); [lra |]. f_equal. field.
  - destruct (Rlt_dec 1 0); [lra | reflexivity].
  - destruct (Rlt_dec 1 0); [lra | reflexivity].
Qed.

(** Summing finite values with [reduce] stays finite and is the real sum. *)
Lemma reduce_add_fin (xs : list R) (a : R) :
  reduce add (Fin a) (map Fin xs) = Fin (a + total xs).
Proof.
  unfold reduce. revert a. induction xs as [| x xs IH]; intros a; simpl.
  - f_equal. unfold total. simpl. lra.
  - rewrite IH. f_equal. unfold total. simpl. lra.
Qed.

End NumberFacts.

(** ** The moving-average window *)

Section Window.

Lemma last_n_length {A : Type} (n : nat) (l : list A) :
  List.length (last_n n l) = Nat.min (List.length l) n.
Proof.
  unfold last_n. rewrite length_skipn. lia.
Qed.

Lemma tl_skipn {A : Type} (m : nat) (l : list A) :
  tl (skipn m l) = skipn (S m) l.
Proof.
  revert l. induction m as [| m IH]; intros [| a l]; simpl; try reflexivity.
  - apply IH.
Qed.

(** Appending a value to the last [n] and dropping the oldest when the cap is
    passed gives the last [n] of the extended sequence. *)
Lemma last_n_snoc {A : Type} (n : nat) (l : list A) (x : A) :
  (if (n <? S (List.length (last_n n l)))%nat
   then tl (last_n n l ++ [x]) else last_n n l ++ [x])
  = last_n n (l ++ [x]).
Proof.
  rewrite last_n_length. unfold last_n. rewrite length_app. simpl.
  destruct (Nat.ltb_spec n (S (Nat.min (List.length l) n))) as [H | H].
  - assert (Hn : (n <= List.length l)%nat) by lia.
    replace (List.length l + 1 - n)%nat with (S (List.length l - n)) by lia.
    rewrite <- tl_skipn. rewrite skipn_app.
    replace (List.length l - n - List.length l)%nat with 0%nat by lia.
    reflexivity.
  - replace (List.length l + 1 - n)%nat with 0%nat by lia.
    replace (List.length l - n)%nat with 0%nat by lia.
    reflexivity.
Qed.

(** One [process] call on a filter with an integral window. *)
Lemma process_values (N : nat) (vs : list number) (v : number) :
  values (fst (process {| windowSize := Fin (INR N); values := vs |} v))
  = if (N <? S (List.length vs))%nat then tl (vs ++ [v]) else vs ++ [v].
Proof.
  unfold process. cbn [fst values windowSize]. unfold length_of, shift.
  rewrite gt_lengths, length_app. cbn [List.length].
  replace (List.length vs + 1)%nat with (S (List.length vs)) by lia.
  reflexivity.
Qed.

Lemma process_windowSize (f : MovingAverageFilter) (v : number) :
  windowSize (fst (process f v)) = windowSize f.
Proof. reflexivity. Qed.

(** The returned value is the mean, as the code computes it, of the values
    kept. *)
Lemma process_output (f : MovingAverageFilter) (v : number) :
  snd (process f v)
  = div (reduce add (Fin 0) (values (fst (process f v))))
        (length_of (values (fst (process f v)))).
Proof. reflexivity. Qed.

Lemma feed_cons (f : MovingAverageFilter) (x : number) (xs : list number) :
  feed f (x :: xs)
  = (fst (feed (fst (process f x)) xs),
     snd (process f x) :: snd (feed (fst (process f x)) xs)).
Proof.
  cbn [feed]. destruct (process f x) as [f1 o]. cbn [fst snd].
  destruct (feed f1 xs); reflexivity.
Qed.

Lemma feed_app (f : MovingAverageFilter) (xs ys : list number) :
  feed f (xs ++ ys)
  = (fst (feed (fst (feed f xs)) ys),
     snd (feed f xs) ++ snd (feed (fst (feed f xs)) ys)).
Proof.
  revert f. induction xs as [| x xs IH]; intros f.
  - cbn [app feed fst snd]. destruct (feed f ys); reflexivity.
  - rewrite <- app_comm_cons, !feed_cons, IH. reflexivity.
Qed.

Lemma feed_one (f : MovingAverageFilter) (x : number) :
  feed f [x] = (fst (process f x), [snd (process f x)]).
Proof.
  rewrite feed_cons. reflexivity.
Qed.

Lemma feed_windowSize (f : MovingAverageFilter) (xs : list number) :
  windowSize (fst (feed f xs)) = windowSize f.
Proof.
  revert f. induction xs as [| x xs IH]; intros f; [reflexivity |].
  rewrite feed_cons. cbn [fst]. rewrite IH. apply process_windowSize.
Qed.

Lemma feed_outputs_length (f : MovingAverageFilter) (xs : list number) :
  List.length (snd (feed f xs)) = List.length xs.
Proof.
  revert f. induction xs as [| x xs IH]; intros f; [reflexivity |].
  rewrite feed_cons. cbn [snd List.length]. now rewrite IH.
Qed.

(** After any number of calls a fresh filter of window [N] holds exactly the
    last [N] inputs, oldest first. *)
Lemma feed_values (N : nat) (xs : list number) :
  values (fst (feed (fresh (Fin (INR N))) xs)) = last_n N xs.
Proof.
  induction xs as [| x xs IH] using rev_ind.
  - reflexivity.
  - rewrite feed_app. cbn [fst]. rewrite feed_one. cbn [fst].
    remember (fst (feed (fresh (Fin (INR N))) xs)) as f eqn:Ef.
    assert (Hw : windowSize f = Fin (INR N)).
    { rewrite Ef, feed_windowSize. reflexivity. }
    destruct f as [w vs]. simpl in Hw, IH. subst w vs.
    rewrite process_values. apply last_n_snoc.
Qed.

End Window.

(** ** Outputs of the filter *)

Section Outputs.

Lemma last_n_map {A B : Type} (g : A -> B) (n : nat) (l : list A) :
  last_n n (map g l) = map g (last_n n l).
Proof.
  unfold last_n. rewrite length_map. apply skipn_map.
Qed.

Lemma last_n_min {A : Type} (n : nat) (l : list A) :
  last_n (Nat.min (List.length l) n) l = last_n n l.
Proof.
  unfold last_n. f_equal. lia.
Qed.

(** The [k]-th call, [k = length earlier + 1], for inputs of any kind. *)
Lemma process_after_feed (N : nat) (earlier : list number) (x : number) :
  snd (process (fst (feed (fresh (Fin (INR N))) earlier)) x)
  = reduce_mean (last_n (Nat.min (S (List.length earlier)) N) (earlier ++ [x])).
Proof.
  rewrite process_output.
  assert (E : fst (process (fst (feed (fresh (Fin (INR N))) earlier)) x)
              = fst (feed (fresh (Fin (INR N))) (earlier ++ [x]))).
  { rewrite feed_app. cbn [fst]. rewrite feed_one. reflexivity. }
  rewrite E, feed_values.
  replace (S (List.length earlier)) with (List.length (earlier ++ [x]))
    by (rewrite length_app; simpl; lia).
  rewrite last_n_min. reflexivity.
Qed.

Lemma window_outputs_snoc {A B : Type} (m : list A -> B) (N : nat)
    (xs : list A) (x : A) :
  window_outputs m N (xs ++ [x])
  = window_outputs m N xs
    ++ [m (last_n (Nat.min (S (List.length xs)) N) (xs ++ [x]))].
Proof.
  unfold window_outputs. rewrite length_app. cbn [List.length].
  rewrite seq_app, map_app. cbn [seq map]. f_equal.
  - apply map_ext_in. intros k Hk. apply in_seq in Hk.
    rewrite firstn_app. replace (k - List.length xs)%nat with 0%nat by lia.
    cbn [firstn]. now rewrite app_nil_r.
  - replace (1 + List.length xs)%nat with (S (List.length xs)) by lia.
    rewrite firstn_all2; [reflexivity |].
    rewrite length_app. simpl. lia.
Qed.

Lemma window_outputs_nth {A B : Type} (m : list A -> B) (N : nat)
    (xs : list A) (k : nat) :
  (1 <= k <= List.length xs)%nat ->
  nth_error (window_outputs m N xs) (k - 1)
  = Some (m (last_n (Nat.min k N) (firstn k xs))).
Proof.
  intros Hk. unfold window_outputs.
  rewrite nth_error_map, nth_error_seq.
  destruct (Nat.ltb_spec (k - 1) (List.length xs)) as [_ | H]; [| lia].
  cbn [option_map]. replace (1 + (k - 1))%nat with k by lia. reflexivity.
Qed.

(** All the outputs of a run, in call order. *)
Lemma feed_outputs (N : nat) (xs : list number) :
  snd (feed (fresh (Fin (INR N))) xs) = window_outputs reduce_mean N xs.
Proof.
  induction xs as [| x xs IH] using rev_ind.
  - reflexivity.
  - rewrite feed_app. cbn [snd]. rewrite feed_one. cbn [snd].
    rewrite IH, window_outputs_snoc, process_after_feed. reflexivity.
Qed.

(** The mean the code computes over finite values is the arithmetic mean. *)
Lemma mean_of_finite (w : list R) :
  w <> [] -> reduce_mean (map Fin w) = Fin (arithmetic_mean w).
Proof.
  intros Hw. unfold reduce_mean, length_of. rewrite reduce_add_fin, length_map.
  rewrite div_by_length.
  - unfold arithmetic_mean. f_equal. f_equal. lra.
  - destruct w; [contradiction | simpl; lia].
Qed.

Lemma window_outputs_finite (N : nat) (xs : list R) :
  (1 <= N)%nat ->
  window_outputs reduce_mean N (map Fin xs) = map Fin (window_means N xs).
Proof.
  intros HN. unfold window_means, window_outputs.
  rewrite length_map, map_map. apply map_ext_in. intros k Hk.
  apply in_seq in Hk. rewrite firstn_map, last_n_map.
  apply mean_of_finite. intros Hnil.
  apply (f_equal (@List.length R)) in Hnil.
  rewrite last_n_length, length_firstn in Hnil. simpl in Hnil. lia.
Qed.

Lemma feed_finite_outputs (N : nat) (xs : list R) :
  (1 <= N)%nat ->
  snd (feed (fresh (Fin (INR N))) (map Fin xs)) = map Fin (window_means N xs).
Proof.
  intros HN. rewrite feed_outputs. now apply window_outputs_finite.
Qed.

(** A filter constructed for the call and used once returns its input. *)
Lemma process_fresh (w : R) (v : number) :
  1 <= w -> snd (process (fresh (Fin w)) v) = v.
Proof.
  intros Hw. unfold process, fresh. cbn [values windowSize app snd].
  unfold length_of. cbn [List.length].
  assert (G : gt (Fin (INR 1)) (Fin w) = false).
  { destruct (gt (Fin (INR 1)) (Fin w)) eqn:E; [| reflexivity].
    apply gt_fin in E. simpl in E. lra. }
  rewrite G. unfold reduce. cbn [fold_left List.length].
  rewrite add_zero_l. replace (INR 1) with 1 by reflexivity. apply div_one.
Qed.

End Outputs.

(** ** Properties of the smoothing filter *)

Lemma window_five : Fin 5 = Fin (INR 5).
Proof. f_equal. simpl. lra. Qed.

(** C5. For a window size [N >= 1] and any sequence of inputs fed to one
    filter instance, the output of the [k]-th [process] call is the mean of
    the last [min k N] inputs received so far, which for finite inputs is
    their arithmetic mean; the first call on an empty filter returns its
    input; and a window-5 filter fed 10, 12, 14, 16, 18 returns
    10, 11, 12, 13, 14. *)
Theorem moving_average_is_mean_of_window (N : nat) (inputs : list number)
    (k : nat) :
  (1 <= N)%nat ->
  (1 <= k <= List.length inputs)%nat ->
  nth_error (snd (feed (fresh (Fin (INR N))) inputs)) (k - 1)
  = Some (reduce_mean (last_n (Nat.min k N) (firstn k inputs)))
  /\ (forall finite : list R,
        inputs = map Fin finite ->
        nth_error (snd (feed (fresh (Fin (INR N))) inputs)) (k - 1)
        = Some (Fin (arithmetic_mean (last_n (Nat.min k N) (firstn k finite)))))
  /\ (forall v : number, snd (process (fresh (Fin (INR N))) v) = v)
  /\ snd (feed (fresh (Fin 5)) (map Fin [10; 12; 14; 16; 18]))
     = map Fin [10; 11; 12; 13; 14].
Proof.
  intros HN Hk. split; [| split; [| split]].
  - rewrite feed_outputs. now apply window_outputs_nth.
  - intros finite ->. rewrite length_map in Hk.
    rewrite feed_finite_outputs by assumption.
    unfold window_means. rewrite nth_error_map, window_outputs_nth by assumption.
    reflexivity.
  - intros v. apply process_fresh. replace 1 with (INR 1) by reflexivity.
    apply le_INR. assumption.
  - rewrite window_five, feed_finite_outputs by lia.
    unfold window_means, window_outputs, arithmetic_mean, last_n, total. simpl.
    repeat f_equal; field.
Qed.

Lemma moving_average_is_mean_of_window_witness :
  nth_error (snd (feed (fresh (Fin (INR 5))) (map Fin [10; 12; 14]))) (3 - 1)
  = Some (Fin (arithmetic_mean (last_n (Nat.min 3 5) (firstn 3 [10; 12; 14])))).
Proof.
  assert (HN : (1 <= 5)%nat) by lia.
  assert (Hk : (1 <= 3 <= List.length (map Fin [10%R; 12%R; 14%R]))%nat)
    by (simpl; lia).
  destruct (moving_average_is_mean_of_window 5 (map Fin [10; 12; 14]) 3 HN Hk)
    as [_ [F _]].
  apply F. reflexivity.
Defined.

(** C6. For a window size [N >= 1], after any number of [process] calls the
    internal sequence has at most [N] elements and holds the most recent
    inputs in arrival order; a call on a full filter discards the oldest
    element and appends the new one, a call below the cap only appends. *)
Theorem filter_length_capped_fifo (N : nat) (inputs : list number) :
  (1 <= N)%nat ->
  let f := fst (feed (fresh (Fin (INR N))) inputs) in
  (List.length (values f) <= N)%nat
  /\ values f = last_n N inputs
  /\ (forall v, List.length (values f) = N ->
        values (fst (process f v)) = tl (values f) ++ [v])
  /\ (forall v, (List.length (values f) < N)%nat ->
        values (fst (process f v)) = values f ++ [v]).
Proof.
  intros HN f.
  assert (Hw : windowSize f = Fin (INR N)).
  { unfold f. rewrite feed_windowSize. reflexivity. }
  assert (Hv : values f = last_n N inputs) by apply feed_values.
  assert (Hlen : (List.length (values f) <= N)%nat).
  { rewrite Hv, last_n_length. lia. }
  repeat split; try assumption.
  - intros v Hfull. destruct f as [w vs]. cbn [values windowSize] in *. subst w.
    rewrite process_values.
    destruct (Nat.ltb_spec N (S (List.length vs))) as [_ | H]; [| lia].
    destruct vs as [| a vs]; [simpl in Hfull; lia | reflexivity].
  - intros v Hbelow. destruct f as [w vs]. cbn [values windowSize] in *. subst w.
    rewrite process_values.
    destruct (Nat.ltb_spec N (S (List.length vs))) as [H | _]; [lia | reflexivity].
Qed.

Lemma filter_length_capped_fifo_witness :
  let f := fst (feed (fresh (Fin (INR 2))) [Fin 1; Fin 2; Fin 3]) in
  (List.length (values f) <= 2)%nat
  /\ values f = last_n 2 [Fin 1; Fin 2; Fin 3]
  /\ (forall v, List.length (values f) = 2%nat ->
        values (fst (process f v)) = tl (values f) ++ [v])
  /\ (forall v, (List.length (values f) < 2)%nat ->
        values (fst (process f v)) = values f ++ [v]).
Proof.
  apply (filter_length_capped_fifo 2 [Fin 1; Fin 2; Fin 3]). lia.
Defined.

(** C7 (as the code has it). The constructor validates nothing: for every
    window size, zero, negative and [NaN] included, construction completes
    normally with that window size stored and an empty value sequence. *)
Theorem constructor_accepts_every_window (w : number) :
  constructor w = Normal {| windowSize := w; values := [] |}
  /\ forall err : Thrown, constructor w <> Throw err.
Proof.
  split; [reflexivity | intros err; discriminate].
Qed.

(** C7, refuted as stated: the window sizes 0 and -1 are not rejected. *)
Lemma constructor_does_not_reject_nonpositive :
  constructor (Fin 0) = Normal {| windowSize := Fin 0; values := [] |}
  /\ constructor (Fin (- 1)) = Normal {| windowSize := Fin (- 1); values := [] |}
  /\ ~ (forall z : Z, (z <= 0)%Z ->
          exists err : Thrown, constructor (Fin (IZR z)) = Throw err).
Proof.
  split; [reflexivity |]. split; [reflexivity |].
  intros H. destruct (H 0%Z) as [err E]; [lia | discriminate E].
Qed.

(** What the unvalidated window then does: with an integral window of 0 or
    less every call empties the sequence again and returns [NaN] (0 / 0). *)
Lemma process_with_nonpositive_window (z : Z) (v : number) :
  (z <= 0)%Z ->
  process (fresh (Fin (IZR z))) v = (fresh (Fin (IZR z)), NaN).
Proof.
  intros Hz. unfold process, fresh. cbn [values windowSize app].
  unfold length_of. cbn [List.length].
  assert (G : gt (Fin (INR 1)) (Fin (IZR z)) = true).
  { apply gt_fin. apply IZR_le in Hz. simpl. lra. }
  rewrite G. unfold shift, reduce. cbn [tl fold_left List.length].
  f_equal. apply div_zero_by_zero.
Qed.

(** ** Properties of the statistics helper *)

Section Statistics.

Lemma total_squares_nonneg (g : R -> R) (xs : list R) :
  0 <= total (map (fun x => Rsqr (g x)) xs).
Proof.
  induction xs as [| x xs IH]; unfold total in *; simpl.
  - lra.
  - pose proof (Rle_0_sqr (g x)). lra.
Qed.

Lemma population_variance_nonneg (xs : list R) :
  xs <> [] -> 0 <= population_variance xs.
Proof.
  intros Hx. unfold population_variance.
  apply Rmult_le_pos; [apply total_squares_nonneg |].
  apply Rlt_le, Rinv_0_lt_compat, lt_0_INR.
  destruct xs; [contradiction | simpl; lia].
Qed.

Lemma pow2_of_deviation (x m : R) :
  Math_pow (sub (Fin x) (Fin m)) 2 = Fin (Rsqr (x - m)).
Proof.
  simpl. f_equal. unfold Rsqr. ring.
Qed.

Lemma reduce_squared_deviations (m : R) (xs : list R) (a : R) :
  reduce (fun acc b => add acc (Math_pow (sub b (Fin m)) 2)) (Fin a) (map Fin xs)
  = Fin (a + total (map (fun x => Rsqr (x - m)) xs)).
Proof.
  unfold reduce. revert a. induction xs as [| x xs IH]; intros a.
  - simpl. f_equal. unfold total. simpl. lra.
  - cbn [map fold_left]. rewrite pow2_of_deviation. cbn [add].
    rewrite IH. f_equal. unfold total. simpl. lra.
Qed.

Lemma sqrt_finite (v : R) : 0 <= v -> Math_sqrt (Fin v) = Fin (sqrt v).
Proof.
  intros Hv. unfold Math_sqrt. destruct (Rlt_dec v 0); [lra | reflexivity].
Qed.

Lemma calculateStats_finite (xs : list R) :
  xs <> [] ->
  calculateStats (map Fin xs)
  = {| mean := Fin (arithmetic_mean xs);
       stdDev := Fin (population_std_dev xs) |}.
Proof.
  intros Hx. unfold calculateStats.
  pose proof (mean_of_finite xs Hx) as Hm. unfold reduce_mean in Hm.
  rewrite Hm.
  rewrite reduce_squared_deviations. unfold length_of. rewrite length_map.
  rewrite div_by_length by (destruct xs; [contradiction | simpl; lia]).
  rewrite Rplus_0_l. fold (population_variance xs).
  rewrite sqrt_finite by (now apply population_variance_nonneg).
  reflexivity.
Qed.

End Statistics.



(** ** The reading processor, step by step *)

Section Pipeline.

Lemma process_with_unfold (calibration : Calibration) (rawData : RawSensorData) :
  process_with calibration rawData
  = Normal
      {| depth := calibratedDepth calibration rawData;
         turbidity := filteredTurbidity rawData;
         temperature := filteredTemperature rawData;
         sediment_level :=
           add (mul (filteredTurbidity rawData) (Fin 0.8))
               (mul (calibratedDepth calibration rawData) (Fin 0.2));
         quality_score :=
           Math_min (Fin 1)
             (add (mul (div (signal_strength rawData) (Fin 100)) (Fin 0.7))
                  (mul (div (battery_level rawData) (Fin 100)) (Fin 0.3)));
         is_outlier :=
           let stats := calculateStats [filteredDepth rawData; raw_depth rawData] in
           isOutlier (raw_depth rawData) (mean stats) (stdDev stats) |}.
Proof. reflexivity. Qed.

(** The calibration object [processSensorData] ends up with. *)
Lemma processSensorData_unfold (supabase : Supabase) (rawData : RawSensorData)
    (sensorId : Z) :
  exists response,
    Query.latest_calibration supabase sensorId = Resolved response
    /\ processSensorData supabase rawData sensorId
       = async (process_with (calibration_or_default (data response)) rawData).
Proof.
  destruct supabase as [table | e]; eexists; split; reflexivity.
Qed.

Lemma filteredDepth_raw (rawData : RawSensorData) :
  filteredDepth rawData = raw_depth rawData.
Proof. apply process_fresh. lra. Qed.

Lemma filteredTurbidity_raw (rawData : RawSensorData) :
  filteredTurbidity rawData = raw_turbidity rawData.
Proof. apply process_fresh. lra. Qed.

Lemma filteredTemperature_raw (rawData : RawSensorData) :
  filteredTemperature rawData = raw_temperature rawData.
Proof. apply process_fresh. lra. Qed.

(** Statistics of a two-element finite sample. *)
Lemma two_point_stats (s r : R) :
  calculateStats [Fin s; Fin r]
  = {| mean := Fin ((s + r) / 2); stdDev := Fin (Rabs (r - s) / 2) |}.
Proof.
  change [Fin s; Fin r] with (map Fin [s; r]).
  rewrite calculateStats_finite by discriminate. f_equal.
  - f_equal. unfold arithmetic_mean, total. simpl. field.
  - f_equal. unfold population_std_dev.
    replace (population_variance [s; r]) with (Rsqr ((r - s) / 2)).
    + rewrite sqrt_Rsqr_abs. unfold Rdiv. rewrite Rabs_mult.
      f_equal. apply Rabs_pos_eq.
      apply Rlt_le, Rinv_0_lt_compat. lra.
    + unfold population_variance, arithmetic_mean, total, Rsqr. simpl. field.
Qed.

Lemma isOutlier_z_score (value m sd : number) :
  isOutlier value m sd = gt (z_score value m sd) (Fin 3).
Proof. reflexivity. Qed.

(** In the exact arithmetic of the model. *)
Lemma two_point_z_score (s r : R) :
  z_score (Fin r) (mean (calculateStats [Fin s; Fin r]))
          (stdDev (calculateStats [Fin s; Fin r]))
  = if Req_dec_T s r then NaN else Fin 1.
Proof.
  rewrite two_point_stats. cbn [mean stdDev]. unfold z_score.
  cbn [sub neg add].
  destruct (Req_dec_T s r) as [E | NE].
  - subst r.
    replace (s + - ((s + s) / 2)) with 0 by field.
    replace (Rabs (s - s) / 2) with 0
      by (replace (s - s) with 0 by ring; rewrite Rabs_R0; field).
    rewrite div_zero_by_zero. reflexivity.
  - assert (Hpos : 0 < Rabs (r - s)) by (apply Rabs_pos_lt; lra).
    rewrite div_fin by lra. cbn [Math_abs]. f_equal.
    destruct (Rle_or_lt 0 (r - s)) as [Hge | Hlt].
    + rewrite (Rabs_pos_eq (r - s)) by assumption.
      replace ((r + - ((s + r) / 2)) / ((r - s) / 2)) with 1 by (field; lra).
      apply Rabs_R1.
    + rewrite (Rabs_left (r - s)) by assumption.
      replace ((r + - ((s + r) / 2)) / (- (r - s) / 2)) with (- (1))
        by (field; lra).
      rewrite Rabs_Ropp. apply Rabs_R1.
Qed.

End Pipeline.

(** ** The outlier test on the two-point sample *)

Section Outlier.

Lemma div_inf_by_two (a : number) :
  a = PInf \/ a = NInf -> div a (Fin (INR 2)) = a.
Proof.
  assert (H2 : ~ INR 2 < 0) by (simpl; lra).
  intros [-> | ->]; unfold div; destruct (Rlt_dec (INR 2) 0); tauto.
Qed.

(** A sample made of twice the same number never passes the test: the
    deviation divided by the standard deviation is [NaN], and [NaN > 3] is
    false. *)
Lemma same_value_z_score (d : number) :
  z_score d (mean (calculateStats [d; d])) (stdDev (calculateStats [d; d])) = NaN.
Proof.
  destruct d as [x | | |].
  - rewrite two_point_z_score. destruct (Req_dec_T x x); [reflexivity | congruence].
  - unfold calculateStats, reduce, length_of, z_score. cbn [fold_left List.length add].
    rewrite div_inf_by_two by auto. reflexivity.
  - unfold calculateStats, reduce, length_of, z_score. cbn [fold_left List.length add].
    rewrite div_inf_by_two by auto. reflexivity.
  - reflexivity.
Qed.

Lemma same_value_not_outlier (d : number) :
  isOutlier d (mean (calculateStats [d; d])) (stdDev (calculateStats [d; d]))
  = false.
Proof.
  rewrite isOutlier_z_score, same_value_z_score. reflexivity.
Qed.

Lemma processSensorData_outlier_flag (supabase : Supabase)
    (rawData : RawSensorData) (sensorId : Z) :
  exists out,
    processSensorData supabase rawData sensorId = Resolved out
    /\ is_outlier out = false.
Proof.
  destruct (processSensorData_unfold supabase rawData sensorId) as [resp [_ E]].
  rewrite E, process_with_unfold. cbn [async]. eexists. split; [reflexivity |].
  cbn [is_outlier]. rewrite filteredDepth_raw. apply same_value_not_outlier.
Qed.

End Outlier.

(** C2, refuted as stated. The pair of finite values 0 and [2 ** -600]
    (about 2.4e-181): over binary64 the mean is [2 ** -601], the squared
    deviations [2 ** -1202] underflow to 0, so the standard deviation is 0
    while [|raw - mean|] is not; the quotient is [Infinity], which exceeds
    the threshold 3, and [isOutlier] returns true. *)
Lemma two_point_test_fires_on_underflow :
  let smoothed := Binary64.of_Z 0 in
  let raw := Binary64.pow2 (-600) in
  let stats := Binary64.calculateStats [smoothed; raw] in
  Binary64.is_finite smoothed = true
  /\ Binary64.is_finite raw = true
  /\ Binary64.mean stats = Binary64.pow2 (-601)
  /\ Binary64.stdDev stats = S754_zero false
  /\ Binary64.Math_abs
       (Binary64.div (Binary64.sub raw (Binary64.mean stats))
                     (Binary64.stdDev stats))
     = S754_infinity false
  /\ Binary64.isOutlier raw (Binary64.mean stats) (Binary64.stdDev stats)
     = true.
Proof.
  vm_compute. repeat split; reflexivity.
Qed.

(** C2 (as the code has it). The sample [processSensorData] builds is the
    smoothed depth next to the raw depth, and the smoothed depth is the raw
    depth; its z-score is [NaN], which does not exceed the threshold 3, so
    [processSensorData] returns [is_outlier = false] for every reading, store
    and sensor. *)
Theorem processSensorData_sample_is_never_flagged (supabase : Supabase)
    (rawData : RawSensorData) (sensorId : Z) :
  let stats := calculateStats [filteredDepth rawData; raw_depth rawData] in
  filteredDepth rawData = raw_depth rawData
  /\ z_score (raw_depth rawData) (mean stats) (stdDev stats) = NaN
  /\ gt (z_score (raw_depth rawData) (mean stats) (stdDev stats)) (Fin 3)
     = false
  /\ exists out,
       processSensorData supabase rawData sensorId = Resolved out
       /\ is_outlier out
          = isOutlier (raw_depth rawData) (mean stats) (stdDev stats)
       /\ is_outlier out = false.
Proof.
  intros stats. unfold stats. rewrite filteredDepth_raw.
  split; [reflexivity |].
  rewrite same_value_z_score. split; [reflexivity |]. split; [reflexivity |].
  destruct (processSensorData_unfold supabase rawData sensorId) as [resp [_ E]].
  rewrite E, process_with_unfold. cbn [async]. eexists.
  split; [reflexivity |]. cbn [is_outlier]. rewrite filteredDepth_raw.
  split; [reflexivity | apply same_value_not_outlier].
Qed.

(** C4. Whenever the smoothed depth equals the raw depth the reading is not
    flagged: for finite depths the sample's standard deviation is 0, the
    quotient 0 / 0 is [NaN], and the comparison with the threshold is false;
    the flag [processSensorData] returns is false as well. *)
Theorem equal_depths_never_flagged (smoothed raw : number) :
  smoothed = raw ->
  let stats := calculateStats [smoothed; raw] in
  isOutlier raw (mean stats) (stdDev stats) = false
  /\ z_score raw (mean stats) (stdDev stats) = NaN
  /\ (is_finite raw = true -> stdDev stats = Fin 0)
  /\ (forall (supabase : Supabase) (rawData : RawSensorData) (sensorId : Z),
        filteredDepth rawData = raw_depth rawData
        /\ exists out,
             processSensorData supabase rawData sensorId = Resolved out
             /\ is_outlier out = false).
Proof.
  intros -> stats. unfold stats.
  split; [apply same_value_not_outlier |].
  split; [apply same_value_z_score |].
  split.
  - destruct raw as [x | | |]; try discriminate. intros _.
    rewrite two_point_stats. cbn [stdDev]. f_equal.
    replace (x - x) with 0 by ring. rewrite Rabs_R0. field.
  - intros supabase rawData sensorId.
    split; [apply filteredDepth_raw | apply processSensorData_outlier_flag].
Qed.

Lemma equal_depths_never_flagged_witness :
  let stats := calculateStats [Fin 100; Fin 100] in
  isOutlier (Fin 100) (mean stats) (stdDev stats) = false
  /\ z_score (Fin 100) (mean stats) (stdDev stats) = NaN
  /\ (is_finite (Fin 100) = true -> stdDev stats = Fin 0)
  /\ (forall (supabase : Supabase) (rawData : RawSensorData) (sensorId : Z),
        filteredDepth rawData = raw_depth rawData
        /\ exists out,
             processSensorData supabase rawData sensorId = Resolved out
             /\ is_outlier out = false).
Proof.
  apply (equal_depths_never_flagged (Fin 100) (Fin 100)). reflexivity.
Defined.

(** ** Properties of the reading processor *)

(** C3. The filters are constructed inside each invocation, so every smoothed
    channel equals the raw input: smoothed depth, turbidity and temperature
    are the raw depth, turbidity and temperature, and the returned depth is
    [raw_depth * scale_factor + offset_value] for the calibration in use. *)
Theorem fresh_filters_return_raw_values (supabase : Supabase)
    (rawData : RawSensorData) (sensorId : Z) :
  filteredDepth rawData = raw_depth rawData
  /\ filteredTurbidity rawData = raw_turbidity rawData
  /\ filteredTemperature rawData = raw_temperature rawData
  /\ exists response out,
       Query.latest_calibration supabase sensorId = Resolved response
       /\ processSensorData supabase rawData sensorId = Resolved out
       /\ turbidity out = raw_turbidity rawData
       /\ temperature out = raw_temperature rawData
       /\ depth out
          = add (mul (raw_depth rawData)
                     (cal_scale_factor (calibration_or_default (data response))))
                (cal_offset_value (calibration_or_default (data response))).
Proof.
  split; [apply filteredDepth_raw |].
  split; [apply filteredTurbidity_raw |].
  split; [apply filteredTemperature_raw |].
  destruct (processSensorData_unfold supabase rawData sensorId) as [resp [Q E]].
  exists resp. rewrite E, process_with_unfold. cbn [async].
  eexists. split; [exact Q |]. split; [reflexivity |].
  cbn [turbidity temperature depth]. unfold calibratedDepth.
  rewrite filteredDepth_raw, filteredTurbidity_raw, filteredTemperature_raw.
  repeat split; reflexivity.
Qed.

Section Quality.

Lemma percent_non_negative (a : number) :
  non_negative a -> non_negative (div a (Fin 100)).
Proof.
  destruct a as [x | | |]; cbn [non_negative]; intros H; try contradiction.
  - rewrite div_fin by lra. cbn [non_negative].
    apply Rmult_le_pos; [assumption |]. apply Rlt_le, Rinv_0_lt_compat. lra.
  - unfold div. destruct (Rlt_dec 100 0); [lra | exact I].
Qed.

Lemma weight_non_negative (c : R) (a : number) :
  0 < c -> non_negative a -> non_negative (mul (Fin c) a).
Proof.
  intros Hc. destruct a as [x | | |]; cbn [non_negative mul]; intros H;
    try contradiction.
  - apply Rmult_le_pos; lra.
  - destruct (Req_dec_T c 0); [lra |]. unfold inf_of_sign.
    destruct (Rlt_dec 0 c); [exact I | lra].
Qed.

Lemma add_non_negative (a b : number) :
  non_negative a -> non_negative b -> non_negative (add a b).
Proof.
  destruct a, b; cbn [non_negative add]; intros Ha Hb; try contradiction;
    try exact I. lra.
Qed.

Lemma min_one_in_unit_interval (a : number) :
  non_negative a -> exists q : R, Math_min (Fin 1) a = Fin q /\ 0 <= q <= 1.
Proof.
  destruct a as [x | | |]; cbn [non_negative Math_min]; intros H;
    try contradiction.
  - exists (Rmin 1 x). split; [reflexivity |]. split.
    + apply Rmin_glb; lra.
    + apply Rmin_l.
  - exists 1. split; [reflexivity | lra].
Qed.

End Quality.

(** C9. For every reading the quality score is
    [min(1, 0.7 * (signal_strength / 100) + 0.3 * (battery_level / 100))];
    on finite inputs this is the real minimum, and for non-negative signal
    strength and battery level, above 100 included, it lies in [0, 1]. *)
Theorem quality_score_is_capped_weighted_sum (supabase : Supabase)
    (rawData : RawSensorData) (sensorId : Z) :
  exists out,
    processSensorData supabase rawData sensorId = Resolved out
    /\ quality_score out
       = Math_min (Fin 1)
           (weighted_health (signal_strength rawData) (battery_level rawData))
    /\ (forall s b : R,
          signal_strength rawData = Fin s -> battery_level rawData = Fin b ->
          quality_score out = Fin (Rmin 1 (0.7 * (s / 100) + 0.3 * (b / 100))))
    /\ (non_negative (signal_strength rawData) ->
        non_negative (battery_level rawData) ->
        exists q : R, quality_score out = Fin q /\ 0 <= q <= 1).
Proof.
  destruct (processSensorData_unfold supabase rawData sensorId) as [resp [_ E]].
  rewrite E, process_with_unfold. cbn [async]. eexists.
  split; [reflexivity |]. cbn [quality_score].
  rewrite (mul_comm _ (Fin 0.7)), (mul_comm _ (Fin 0.3)).
  fold (weighted_health (signal_strength rawData) (battery_level rawData)).
  split; [reflexivity |]. split.
  - intros s b -> ->. unfold weighted_health.
    rewrite !div_fin by lra. reflexivity.
  - intros Hs Hb. apply min_one_in_unit_interval. unfold weighted_health.
    apply add_non_negative; apply weight_non_negative; try lra;
      now apply percent_non_negative.
Qed.

Lemma quality_score_is_capped_weighted_sum_witness :
  exists out,
    processSensorData (Reachable []) sample_reading 1 = Resolved out
    /\ quality_score out = Fin (Rmin 1 (0.7 * (150 / 100) + 0.3 * (120 / 100)))
    /\ exists q : R, quality_score out = Fin q /\ 0 <= q <= 1.
Proof.
  destruct (quality_score_is_capped_weighted_sum (Reachable []) sample_reading 1)
    as [out [E [_ [F G]]]].
  exists out. split; [exact E |]. split.
  - apply F; reflexivity.
  - apply G; simpl; lra.
Defined.

(** C10. Calibration is applied to the smoothed depth only:
    [depth = smoothed_depth * scale_factor + offset_value], turbidity and
    temperature are the smoothed values as they are; under the identity
    calibration (offset 0, scale 1) the depth is the smoothed depth. *)
Theorem calibration_applies_to_depth_only (supabase : Supabase)
    (rawData : RawSensorData) (sensorId : Z) :
  exists response out,
    Query.latest_calibration supabase sensorId = Resolved response
    /\ processSensorData supabase rawData sensorId = Resolved out
    /\ depth out
       = add (mul (filteredDepth rawData)
                  (cal_scale_factor (calibration_or_default (data response))))
             (cal_offset_value (calibration_or_default (data response)))
    /\ turbidity out = filteredTurbidity rawData
    /\ temperature out = filteredTemperature rawData
    /\ (calibration_or_default (data response) = identity_calibration ->
        depth out = filteredDepth rawData).
Proof.
  destruct (processSensorData_unfold supabase rawData sensorId) as [resp [Q E]].
  exists resp. rewrite E, process_with_unfold. cbn [async].
  eexists. split; [exact Q |]. split; [reflexivity |].
  cbn [depth turbidity temperature]. unfold calibratedDepth.
  repeat split; try reflexivity.
  intros ->. cbn [identity_calibration cal_scale_factor cal_offset_value].
  rewrite mul_one_r. apply add_zero_r.
Qed.

Lemma calibration_applies_to_depth_only_witness :
  exists out,
    processSensorData (Reachable []) sample_reading 1 = Resolved out
    /\ depth out = filteredDepth sample_reading.
Proof.
  destruct (calibration_applies_to_depth_only (Reachable []) sample_reading 1)
    as [resp [out [Q [E [_ [_ [_ I]]]]]]].
  exists out. split; [exact E |]. apply I.
  cbn in Q. injection Q as <-. reflexivity.
Defined.

(** C1, the code at a failing lookup. When the store fails, the awaited
    response carries the error and no data; [processSensorData] reads only
    the data, so it resolves with the reading processed under the identity
    calibration, exactly as for a store without rows, and is not rejected. *)
Theorem lookup_failure_is_replaced_by_default (e : PostgrestError)
    (rawData : RawSensorData) (sensorId : Z) :
  Query.latest_calibration (Failing e) sensorId
  = Resolved {| data := None; error := Some e |}
  /\ processSensorData (Failing e) rawData sensorId
     = async (process_with identity_calibration rawData)
  /\ processSensorData (Failing e) rawData sensorId
     = processSensorData (Reachable []) rawData sensorId
  /\ (forall reason : Thrown,
        processSensorData (Failing e) rawData sensorId <> Rejected reason).
Proof.
  split; [reflexivity |]. split; [reflexivity |]. split; [reflexivity |].
  intros reason. discriminate.
Qed.

(** ** The default calibration on the regular path *)

(** With a reachable store that holds no row for the sensor, the reading is
    processed under the identity calibration. *)
Lemma zero_rows_give_identity_calibration (table : list CalibrationRow)
    (rawData : RawSensorData) (sensorId : Z) :
  Query.eq_sensor_id sensorId table = [] ->
  processSensorData (Reachable table) rawData sensorId
  = async (process_with identity_calibration rawData).
Proof.
  intros H. unfold processSensorData, Query.latest_calibration.
  rewrite H. reflexivity.
Qed.

(** With rows for the sensor, the one created last is used. *)
Example latest_row_is_used :
  let row i t s o k :=
    {| id := i; created_at := t; sensor_id := s; parameter := "depth";
       offset_value := Fin o; scale_factor := Fin k |} in
  calibration_or_default
    (data {| data := Some (Query.limit 1 (Query.order_created_at_desc
                       (Query.eq_sensor_id 7
                          [row 1%Z 10%Z 7%Z 1 2; row 2%Z 30%Z 7%Z 3 4;
                           row 3%Z 40%Z 8%Z 5 6; row 4%Z 20%Z 7%Z 7 8])));
             error := None |})
  = {| cal_offset_value := Fin 3; cal_scale_factor := Fin 4 |}.
Proof. reflexivity. Qed.

(** ** The synthetic data generator: noise *)

Section Noise.

Lemma in_unit_range_drop (k : nat) (e : Entropy) :
  in_unit_range e -> in_unit_range (drop k e).
Proof.
  intros H n. apply H.
Qed.

Lemma noise_sum_range (e : Entropy) :
  in_unit_range e -> -3 <= noise_sum e < 3.
Proof.
  intros H. unfold noise_sum.
  pose proof (H 0%nat). pose proof (H 1%nat). pose proof (H 2%nat).
  pose proof (H 3%nat). pose proof (H 4%nat). pose proof (H 5%nat). lra.
Qed.

(** On finite arguments the result is finite and six draws are consumed. *)
Lemma addSensorNoise_finite (v f : R) (e : Entropy) :
  addSensorNoise (Fin v) (Fin f) e
  = (Fin (v * (1 + f * noise_sum e)), drop 6 e).
Proof.
  unfold addSensorNoise, noise_sum. cbn. unfold drop. cbn [Nat.add].
  do 5 f_equal. lra.
Qed.

End Noise.

(** ** The synthetic data generator: readings *)

Section Generator.

Lemma dailyFactor_finite (h : Z) :
  exists d : R, dailyFactor_of (Fin (IZR h)) = Fin d /\ -1 <= d <= 1.
Proof.
  unfold dailyFactor_of, Math_PI. rewrite div_fin by lra. cbn [mul Math_sin].
  eexists. split; [reflexivity |]. apply SIN_bound.
Qed.

(** The generator, with the draws each field consumes made explicit. *)
Lemma generateRealisticSensorData_fields (h : Z) (base : BaseValues.t)
    (e : Entropy) :
  let dailyFactor := dailyFactor_of (Fin (IZR h)) in
  generateRealisticSensorData h base e
  = ({| raw_depth :=
          fst (addSensorNoise
                 (mul (BaseValues.depth base)
                      (add (Fin 1) (mul (Fin 0.05) dailyFactor)))
                 default_noiseFactor e);
        raw_turbidity :=
          fst (addSensorNoise
                 (mul (BaseValues.turbidity base)
                      (add (Fin 1) (mul (Fin 0.1) dailyFactor)))
                 default_noiseFactor (drop 6 e));
        raw_temperature :=
          fst (addSensorNoise
                 (add (BaseValues.temperature base) (mul (Fin 2) dailyFactor))
                 default_noiseFactor (drop 12 e));
        voltage := fst (addSensorNoise (Fin 12) (Fin 0.01) (drop 18 e));
        battery_level :=
          fst (addSensorNoise (add (Fin 85) (mul (Fin 5) dailyFactor))
                              (Fin 0.005) (drop 24 e));
        signal_strength :=
          fst (addSensorNoise
                 (sub (Fin 90) (mul (Fin 5) (Math_abs dailyFactor)))
                 (Fin 0.02) (drop 30 e)) |},
     drop 36 e).
Proof. reflexivity. Qed.

End Generator.

Section GeneratedRanges.

(** A non-negative base scaled by one noise factor. *)
Lemma scaled_range (a lo hi g n : R) :
  0 <= lo -> lo <= a <= hi -> 0 <= g -> 3 * g < 1 -> -3 <= n < 3 ->
  lo * (1 - 3 * g) <= a * (1 + g * n) <= hi * (1 + 3 * g).
Proof.
  intros Hlo Ha Hg Hsmall Hn.
  assert (Hgn : - (3 * g) <= g * n <= 3 * g) by nra.
  assert (Hf : 1 - 3 * g <= 1 + g * n <= 1 + 3 * g) by lra.
  split.
  - apply Rle_trans with (lo * (1 + g * n)).
    + apply Rmult_le_compat_l; lra.
    + apply Rmult_le_compat_r; lra.
  - apply Rle_trans with (hi * (1 + g * n)).
    + apply Rmult_le_compat_r; lra.
    + apply Rmult_le_compat_l; lra.
Qed.

Lemma noise_of_drop (k : nat) (e : Entropy) :
  in_unit_range e -> -3 <= noise_sum (drop k e) < 3.
Proof.
  intros H. apply noise_sum_range. now apply in_unit_range_drop.
Qed.

End GeneratedRanges.

(** X2. Whatever the hour and the base values, with draws in [0, 1) the
    generated voltage lies between 11.6 and 12.4, the battery level between
    78 and 92 and the signal strength between 79 and 96; one reading
    consumes 36 draws.  The bounds leave a margin around the extremes
    11.64 and 12.36, 78.8 and 91.35, 79.9 and 95.4 of exact arithmetic. *)
Theorem generated_electrical_channels_in_range (h : Z) (base : BaseValues.t)
    (e : Entropy) :
  in_unit_range e ->
  exists v b s : R,
    voltage (fst (generateRealisticSensorData h base e)) = Fin v
    /\ battery_level (fst (generateRealisticSensorData h base e)) = Fin b
    /\ signal_strength (fst (generateRealisticSensorData h base e)) = Fin s
    /\ 11.6 <= v <= 12.4
    /\ 78 <= b <= 92
    /\ 79 <= s <= 96
    /\ snd (generateRealisticSensorData h base e) = drop 36 e.
Proof.
  intros He. rewrite generateRealisticSensorData_fields.
  cbn [fst snd voltage battery_level signal_strength].
  destruct (dailyFactor_finite h) as [d [-> Hd]].
  cbn [add sub neg mul Math_abs]. rewrite !addSensorNoise_finite. cbn [fst].
  do 3 eexists. repeat (split; [reflexivity |]).
  pose proof (noise_of_drop 18 e He) as N1.
  pose proof (noise_of_drop 24 e He) as N2.
  pose proof (noise_of_drop 30 e He) as N3.
  assert (Habs : 0 <= Rabs d <= 1).
  { split; [apply Rabs_pos | apply Rabs_le; lra]. }
  split; [| split; [| split]].
  - pose proof (scaled_range 12 12 12 0.01 _ ltac:(lra) ltac:(lra) ltac:(lra)
                  ltac:(lra) N1). lra.
  - pose proof (scaled_range (85 + 5 * d) 80 90 0.005 _ ltac:(lra) ltac:(lra)
                  ltac:(lra) ltac:(lra) N2). lra.
  - pose proof (scaled_range (90 + - (5 * Rabs d)) 85 90 0.02 _ ltac:(lra)
                  ltac:(lra) ltac:(lra) ltac:(lra) N3). lra.
  - reflexivity.
Qed.

Lemma generated_electrical_channels_in_range_witness :
  exists v b s : R,
    voltage (fst (generateRealisticSensorData 14
                    {| BaseValues.depth := Fin 40;
                       BaseValues.turbidity := Fin 6;
                       BaseValues.temperature := Fin 22 |}
                    (fun _ => 0.25))) = Fin v
    /\ battery_level (fst (generateRealisticSensorData 14
                    {| BaseValues.depth := Fin 40;
                       BaseValues.turbidity := Fin 6;
                       BaseValues.temperature := Fin 22 |}
                    (fun _ => 0.25))) = Fin b
    /\ signal_strength (fst (generateRealisticSensorData 14
                    {| BaseValues.depth := Fin 40;
                       BaseValues.turbidity := Fin 6;
                       BaseValues.temperature := Fin 22 |}
                    (fun _ => 0.25))) = Fin s
    /\ 11.6 <= v <= 12.4 /\ 78 <= b <= 92 /\ 79 <= s <= 96.
Proof.
  destruct (generated_electrical_channels_in_range 14
              {| BaseValues.depth := Fin 40;
                 BaseValues.turbidity := Fin 6;
                 BaseValues.temperature := Fin 22 |}
              (fun _ => 0.25))
    as [v [b [s [Ev [Eb [Es [Hv [Hb [Hs _]]]]]]]]].
  - intros n. lra.
  - exists v, b, s. repeat split; assumption || apply Hv || apply Hb || apply Hs.
Defined.

Lemma generated_health_channels (h : Z) (base : BaseValues.t) (e : Entropy) :
  in_unit_range e ->
  exists b s : R,
    battery_level (fst (generateRealisticSensorData h base e)) = Fin b
    /\ signal_strength (fst (generateRealisticSensorData h base e)) = Fin s
    /\ 78.8 <= b <= 91.35
    /\ 79.9 <= s <= 95.4.
Proof.
  intros He. rewrite generateRealisticSensorData_fields.
  cbn [fst battery_level signal_strength].
  destruct (dailyFactor_finite h) as [d [-> Hd]].
  cbn [add sub neg mul Math_abs]. rewrite !addSensorNoise_finite. cbn [fst].
  do 2 eexists. repeat (split; [reflexivity |]).
  pose proof (noise_of_drop 24 e He) as N2.
  pose proof (noise_of_drop 30 e He) as N3.
  assert (Habs : 0 <= Rabs d <= 1).
  { split; [apply Rabs_pos | apply Rabs_le; lra]. }
  split.
  - pose proof (scaled_range (85 + 5 * d) 80 90 0.005 _ ltac:(lra) ltac:(lra)
                  ltac:(lra) ltac:(lra) N2). lra.
  - pose proof (scaled_range (90 + - (5 * Rabs d)) 85 90 0.02 _ ltac:(lra)
                  ltac:(lra) ltac:(lra) ltac:(lra) N3). lra.
Qed.

(** X4. A generated reading, processed by [processSensorData], gets a
    quality score strictly between 0.79 and 0.95: the cap at 1 is never
    reached and the score is the plain weighted sum of signal strength and
    battery level. *)
Theorem generated_reading_quality_is_uncapped (supabase : Supabase) (h : Z)
    (base : BaseValues.t) (e : Entropy) (sensorId : Z) :
  in_unit_range e ->
  let reading := fst (generateRealisticSensorData h base e) in
  exists (out : ProcessedSensorData) (s b : R),
    processSensorData supabase reading sensorId = Resolved out
    /\ signal_strength reading = Fin s
    /\ battery_level reading = Fin b
    /\ quality_score out = Fin (s / 100 * 0.7 + b / 100 * 0.3)
    /\ 0.79 < s / 100 * 0.7 + b / 100 * 0.3 < 0.95.
Proof.
  intros He reading.
  destruct (generated_health_channels h base e He)
    as [b [s [Eb [Es [Hb Hs]]]]].
  destruct (processSensorData_unfold supabase reading sensorId) as [resp [_ E]].
  rewrite E, process_with_unfold. cbn [async].
  eexists. exists s, b. split; [reflexivity |].
  fold reading in Eb, Es. split; [exact Es |]. split; [exact Eb |].
  cbn [quality_score]. rewrite Es, Eb, !div_fin by lra. cbn [mul add Math_min].
  assert (Hq : 0.79 < s / 100 * 0.7 + b / 100 * 0.3 < 0.95) by lra.
  split; [| exact Hq]. f_equal. apply Rmin_right. lra.
Qed.

Lemma generated_reading_quality_is_uncapped_witness :
  let reading :=
    fst (generateRealisticSensorData 14
           {| BaseValues.depth := Fin 40;
              BaseValues.turbidity := Fin 6;
              BaseValues.temperature := Fin 22 |} (fun _ => 0.25)) in
  exists (out : ProcessedSensorData) (s b : R),
    processSensorData (Reachable []) reading 1 = Resolved out
    /\ signal_strength reading = Fin s
    /\ battery_level reading = Fin b
    /\ quality_score out = Fin (s / 100 * 0.7 + b / 100 * 0.3)
    /\ 0.79 < s / 100 * 0.7 + b / 100 * 0.3 < 0.95.
Proof.
  apply (generated_reading_quality_is_uncapped (Reachable []) 14
           {| BaseValues.depth := Fin 40;
              BaseValues.turbidity := Fin 6;
              BaseValues.temperature := Fin 22 |} (fun _ => 0.25) 1).
  intros n. lra.
Defined.

(** ** The seed script's shortcut and the pipeline *)

(** X5. [processRawData] of the seed script computes, for every reading and
    calibration, exactly the record [processSensorData] computes once its
    calibration object is known, and tags it with the method name
    [storeSensorData] writes. *)
Theorem processRawData_agrees_with_pipeline (rawData : RawSensorData)
    (calibration : Calibration) :
  process_with calibration rawData
  = Normal (seeded_data (processRawData rawData calibration))
  /\ seeded_processing_method (processRawData rawData calibration)
     = "moving_average"%string
  /\ forall (table : list CalibrationRow) (sensorId : Z),
       calibration_or_default
         (Some (Query.limit 1 (Query.order_created_at_desc
                                 (Query.eq_sensor_id sensorId table))))
       = calibration ->
       processSensorData (Reachable table) rawData sensorId
       = Resolved (seeded_data (processRawData rawData calibration)).
Proof.
  assert (E : process_with calibration rawData
              = Normal (seeded_data (processRawData rawData calibration))).
  { rewrite process_with_unfold. unfold processRawData, calibratedDepth.
    cbn [seeded_data]. cbv zeta.
    rewrite filteredDepth_raw, filteredTurbidity_raw, filteredTemperature_raw.
    rewrite same_value_not_outlier. reflexivity. }
  split; [exact E |]. split; [reflexivity |].
  intros table sensorId Hc. unfold processSensorData. cbn [Query.latest_calibration await bind data].
  rewrite Hc, E. reflexivity.
Qed.

Lemma processRawData_agrees_with_pipeline_witness :
  processSensorData (Reachable []) sample_reading 7
  = Resolved (seeded_data (processRawData sample_reading identity_calibration)).
Proof.
  destruct (processRawData_agrees_with_pipeline sample_reading
              identity_calibration) as [_ [_ H]].
  apply (H [] 7%Z). reflexivity.
Defined.

(** ** Storing readings in the in-memory database *)

Section Storing.

Lemma store_first_request_fails (rawData : RawSensorData)
    (processedData : ProcessedSensorData) (sensorId : Z)
    (db : Database) (e : PostgrestError) :
  InMemory.next_outage db = Some e ->
  InMemory.store rawData processedData sensorId db
  = (Rejected (StoreFailure e), InMemory.after_request db).
Proof.
  intros H. unfold InMemory.store, storeSensorData, InMemory.insert_raw_returning.
  rewrite H. reflexivity.
Qed.

Lemma store_second_request_fails (rawData : RawSensorData)
    (processedData : ProcessedSensorData) (sensorId : Z)
    (db : Database) (e : PostgrestError) :
  InMemory.next_outage db = None ->
  InMemory.next_outage (InMemory.after_request db) = Some e ->
  InMemory.store rawData processedData sensorId db
  = (Rejected (StoreFailure e),
     {| sensor_raw_data :=
          sensor_raw_data db ++ [stored_raw_row rawData sensorId db];
        sensor_processed_data := sensor_processed_data db;
        next_raw_id := next_raw_id db + 1;
        next_processed_id := next_processed_id db;
        current_time := current_time db;
        outages := tl (tl (outages db)) |}).
Proof.
  intros H1 H2.
  unfold InMemory.store, storeSensorData, InMemory.insert_raw_returning.
  rewrite H1. cbn [InMemory.number_raw List.length error data ri_sensor_id ri_raw].
  unfold InMemory.insert_processed.
  unfold InMemory.next_outage in *. cbn [outages InMemory.after_request] in *.
  rewrite H2. reflexivity.
Qed.

Lemma store_both_requests_served (rawData : RawSensorData)
    (processedData : ProcessedSensorData) (sensorId : Z) (db : Database) :
  InMemory.next_outage db = None ->
  InMemory.next_outage (InMemory.after_request db) = None ->
  InMemory.store rawData processedData sensorId db
  = (Resolved tt,
     {| sensor_raw_data :=
          sensor_raw_data db ++ [stored_raw_row rawData sensorId db];
        sensor_processed_data :=
          sensor_processed_data db
          ++ [stored_processed_row processedData sensorId db];
        next_raw_id := next_raw_id db + 1;
        next_processed_id := next_processed_id db + 1;
        current_time := current_time db;
        outages := tl (tl (outages db)) |}).
Proof.
  intros H1 H2.
  unfold InMemory.store, storeSensorData, InMemory.insert_raw_returning.
  rewrite H1. cbn [InMemory.number_raw List.length error data ri_sensor_id ri_raw].
  unfold InMemory.insert_processed.
  unfold InMemory.next_outage in *. cbn [outages InMemory.after_request] in *.
  rewrite H2. reflexivity.
Qed.

(** The three ways a call can go. *)
Lemma store_cases (db : Database) :
  (exists e, InMemory.next_outage db = Some e)
  \/ (InMemory.next_outage db = None
      /\ exists e, InMemory.next_outage (InMemory.after_request db) = Some e)
  \/ (InMemory.next_outage db = None
      /\ InMemory.next_outage (InMemory.after_request db) = None).
Proof.
  destruct (InMemory.next_outage db) as [e |]; [left; eauto | right].
  destruct (InMemory.next_outage (InMemory.after_request db)) as [e |];
    [left | right]; eauto.
Qed.

End Storing.

(** X6. When the raw insert fails, [storeSensorData] rejects with that very
    error, neither table changes, and the processed insert is not requested:
    only one pending outage is consumed. *)
Theorem store_raw_failure_writes_nothing (rawData : RawSensorData)
    (processedData : ProcessedSensorData) (sensorId : Z) (db : Database)
    (e : PostgrestError) :
  InMemory.next_outage db = Some e ->
  fst (InMemory.store rawData processedData sensorId db)
  = Rejected (StoreFailure e)
  /\ sensor_raw_data (snd (InMemory.store rawData processedData sensorId db))
     = sensor_raw_data db
  /\ sensor_processed_data
       (snd (InMemory.store rawData processedData sensorId db))
     = sensor_processed_data db
  /\ outages (snd (InMemory.store rawData processedData sensorId db))
     = tl (outages db).
Proof.
  intros H. rewrite (store_first_request_fails _ _ _ _ _ H).
  repeat split; reflexivity.
Qed.

Lemma store_raw_failure_writes_nothing_witness :
  fst (InMemory.store sample_reading sample_processed 7
         (sample_database [Some fetch_failed; None]))
  = Rejected (StoreFailure fetch_failed)
  /\ outages (snd (InMemory.store sample_reading sample_processed 7
                     (sample_database [Some fetch_failed; None])))
     = [None].
Proof.
  destruct (store_raw_failure_writes_nothing sample_reading sample_processed 7
              (sample_database [Some fetch_failed; None]) fetch_failed)
    as [E [_ [_ O]]].
  - reflexivity.
  - split; [exact E | exact O].
Defined.

(** X7. [storeSensorData] is not atomic: when the raw insert is served and
    the processed insert fails, the promise is rejected with the second
    error, yet the raw row stays in [sensor_raw_data] while
    [sensor_processed_data] is unchanged; if no processed row already refers
    to the new identifier, the new raw row is left without a processed row. *)
Theorem store_processed_failure_leaves_raw_row (rawData : RawSensorData)
    (processedData : ProcessedSensorData) (sensorId : Z) (db : Database)
    (e : PostgrestError) :
  InMemory.next_outage db = None ->
  InMemory.next_outage (InMemory.after_request db) = Some e ->
  (forall p, In p (sensor_processed_data db) ->
     processed_row_raw_reading_id p <> next_raw_id db) ->
  let db' := snd (InMemory.store rawData processedData sensorId db) in
  fst (InMemory.store rawData processedData sensorId db)
  = Rejected (StoreFailure e)
  /\ sensor_raw_data db'
     = sensor_raw_data db ++ [stored_raw_row rawData sensorId db]
  /\ sensor_processed_data db' = sensor_processed_data db
  /\ In (stored_raw_row rawData sensorId db) (orphan_raw_rows db').
Proof.
  intros H1 H2 Hfresh db'. unfold db'.
  rewrite (store_second_request_fails _ _ _ _ _ H1 H2). cbn [fst snd].
  cbn [sensor_raw_data sensor_processed_data].
  repeat split; try reflexivity.
  unfold orphan_raw_rows. cbn [sensor_raw_data sensor_processed_data].
  apply filter_In. split.
  - apply in_or_app. right. left. reflexivity.
  - apply negb_true_iff. apply not_true_is_false. intros Hex.
    apply existsb_exists in Hex. destruct Hex as [p [Hp Heq]].
    apply Z.eqb_eq in Heq. apply (Hfresh p Hp). exact Heq.
Qed.

Lemma store_processed_failure_leaves_raw_row_witness :
  let db := sample_database [None; Some fetch_failed] in
  let db' := snd (InMemory.store sample_reading sample_processed 7 db) in
  fst (InMemory.store sample_reading sample_processed 7 db)
  = Rejected (StoreFailure fetch_failed)
  /\ sensor_raw_data db'
     = sensor_raw_data db ++ [stored_raw_row sample_reading 7 db]
  /\ sensor_processed_data db' = sensor_processed_data db
  /\ In (stored_raw_row sample_reading 7 db) (orphan_raw_rows db').
Proof.
  apply (store_processed_failure_leaves_raw_row sample_reading sample_processed
           7 (sample_database [None; Some fetch_failed]) fetch_failed).
  - reflexivity.
  - reflexivity.
  - intros p [<- | []]. cbn. discriminate.
Defined.

(** X8. When both inserts are served, [storeSensorData] resolves and each
    table gains exactly one row: the raw row carries the reading and the
    sensor id, and the processed row carries the processed values, the same
    sensor id, the method [moving_average] and the identifier of that raw
    row. *)
Theorem store_success_links_processed_row_to_raw_row (rawData : RawSensorData)
    (processedData : ProcessedSensorData) (sensorId : Z) (db : Database) :
  InMemory.next_outage db = None ->
  InMemory.next_outage (InMemory.after_request db) = None ->
  let db' := snd (InMemory.store rawData processedData sensorId db) in
  fst (InMemory.store rawData processedData sensorId db) = Resolved tt
  /\ exists r p,
       sensor_raw_data db' = sensor_raw_data db ++ [r]
       /\ sensor_processed_data db' = sensor_processed_data db ++ [p]
       /\ raw_row_data r = rawData
       /\ raw_row_sensor_id r = sensorId
       /\ processed_row_data p = processedData
       /\ processed_row_sensor_id p = sensorId
       /\ processed_row_method p = "moving_average"%string
       /\ processed_row_raw_reading_id p = raw_row_id r.
Proof.
  intros H1 H2 db'. unfold db'.
  rewrite (store_both_requests_served _ _ _ _ H1 H2). cbn [fst snd].
  split; [reflexivity |].
  exists (stored_raw_row rawData sensorId db),
         (stored_processed_row processedData sensorId db).
  repeat split; reflexivity.
Qed.

Lemma store_success_links_processed_row_to_raw_row_witness :
  let db := sample_database [] in
  let db' := snd (InMemory.store sample_reading sample_processed 7 db) in
  fst (InMemory.store sample_reading sample_processed 7 db) = Resolved tt
  /\ exists r p,
       sensor_raw_data db' = sensor_raw_data db ++ [r]
       /\ sensor_processed_data db' = sensor_processed_data db ++ [p]
       /\ raw_row_data r = sample_reading
       /\ raw_row_sensor_id r = 7%Z
       /\ processed_row_data p = sample_processed
       /\ processed_row_sensor_id p = 7%Z
       /\ processed_row_method p = "moving_average"%string
       /\ processed_row_raw_reading_id p = raw_row_id r.
Proof.
  apply (store_success_links_processed_row_to_raw_row sample_reading
           sample_processed 7 (sample_database [])); reflexivity.
Defined.

(** X9. Whatever outages the requests meet, [storeSensorData] keeps the
    references resolved: if every processed row refers to a stored raw row of
    the same sensor before the call, so it does after it. *)
Theorem store_keeps_references_resolved (rawData : RawSensorData)
    (processedData : ProcessedSensorData) (sensorId : Z) (db : Database) :
  references_resolve db ->
  references_resolve (snd (InMemory.store rawData processedData sensorId db)).
Proof.
  intros Hinv.
  destruct (store_cases db) as [[e H] | [[H1 [e H2]] | [H1 H2]]].
  - rewrite (store_first_request_fails _ _ _ _ _ H). exact Hinv.
  - rewrite (store_second_request_fails _ _ _ _ _ H1 H2). cbn [snd].
    intros p Hp. cbn [sensor_processed_data sensor_raw_data] in *.
    destruct (Hinv p Hp) as [r [Hr Hlink]].
    exists r. split; [apply in_or_app; left; exact Hr | exact Hlink].
  - rewrite (store_both_requests_served _ _ _ _ H1 H2). cbn [snd].
    intros p Hp. cbn [sensor_processed_data sensor_raw_data] in *.
    apply in_app_or in Hp. destruct Hp as [Hp | [<- | []]].
    + destruct (Hinv p Hp) as [r [Hr Hlink]].
      exists r. split; [apply in_or_app; left; exact Hr | exact Hlink].
    + exists (stored_raw_row rawData sensorId db).
      split; [apply in_or_app; right; left; reflexivity |].
      split; reflexivity.
Qed.

Lemma store_keeps_references_resolved_witness :
  references_resolve
    (snd (InMemory.store sample_reading sample_processed 7
            (sample_database [None; Some fetch_failed]))).
Proof.
  apply store_keeps_references_resolved.
  intros p [<- | []]. eexists. split; [left; reflexivity |].
  split; reflexivity.
Defined.

(** ** Further behaviour of the smoothing filter *)

Section FilterBehaviour.

Lemma last_n_all_of_it {A : Type} (l : list A) :
  last_n (List.length l) l = l.
Proof.
  unfold last_n. rewrite Nat.sub_diag. reflexivity.
Qed.

(** A window the sequence length never exceeds. *)
Lemma process_without_eviction (w : number) (vs : list number) (v : number) :
  gt (length_of (vs ++ [v])) w = false ->
  process {| windowSize := w; values := vs |} v
  = ({| windowSize := w; values := vs ++ [v] |}, reduce_mean (vs ++ [v])).
Proof.
  intros H. unfold process. cbn [values windowSize]. rewrite H. reflexivity.
Qed.

Lemma feed_without_eviction (w : number) (xs : list number) :
  (forall n : nat, gt (Fin (INR n)) w = false) ->
  feed (fresh w) xs
  = ({| windowSize := w; values := xs |},
     window_outputs reduce_mean (List.length xs) xs).
Proof.
  intros Hw. induction xs as [| x xs IH] using rev_ind.
  - reflexivity.
  - rewrite feed_app, IH. cbn [fst snd]. rewrite feed_one.
    rewrite process_without_eviction by apply Hw. cbn [fst snd].
    f_equal. rewrite window_outputs_snoc.
    rewrite length_app. cbn [List.length].
    replace (Nat.min (S (List.length xs)) (List.length xs + 1))
      with (List.length (xs ++ [x]))
      by (rewrite length_app; cbn [List.length]; lia).
    rewrite last_n_all_of_it. f_equal.
    unfold window_outputs. apply map_ext_in. intros k Hk. apply in_seq in Hk.
    replace (Nat.min k (List.length xs + 1)) with (Nat.min k (List.length xs))
      by lia.
    reflexivity.
Qed.

Lemma last_n_whole {A : Type} (n : nat) (l : list A) :
  (List.length l <= n)%nat -> last_n n l = l.
Proof.
  intros H. unfold last_n.
  replace (List.length l - n)%nat with 0%nat by lia. reflexivity.
Qed.

End FilterBehaviour.

(** X11. A filter whose window is [Infinity] or [NaN] never evicts: after
    any run it holds every input it was given, and the [k]-th output is the
    mean of the first [k] inputs. *)
Theorem unbounded_window_keeps_every_input (w : number)
    (inputs : list number) (k : nat) :
  w = PInf \/ w = NaN ->
  (1 <= k <= List.length inputs)%nat ->
  values (fst (feed (fresh w) inputs)) = inputs
  /\ nth_error (snd (feed (fresh w) inputs)) (k - 1)
     = Some (reduce_mean (firstn k inputs)).
Proof.
  intros Hw Hk.
  assert (Hgt : forall n : nat, gt (Fin (INR n)) w = false)
    by (intros n; destruct Hw as [-> | ->]; reflexivity).
  rewrite (feed_without_eviction w inputs Hgt). cbn [fst snd values].
  split; [reflexivity |].
  rewrite window_outputs_nth by assumption. do 2 f_equal.
  apply last_n_whole. rewrite length_firstn. lia.
Qed.

Lemma unbounded_window_keeps_every_input_witness :
  values (fst (feed (fresh NaN) [Fin 1; Fin 2; Fin 3])) = [Fin 1; Fin 2; Fin 3]
  /\ nth_error (snd (feed (fresh NaN) [Fin 1; Fin 2; Fin 3])) (3 - 1)
     = Some (reduce_mean (firstn 3 [Fin 1; Fin 2; Fin 3])).
Proof.
  apply (unbounded_window_keeps_every_input NaN [Fin 1; Fin 2; Fin 3] 3).
  - right. reflexivity.
  - simpl. lia.
Defined.

(** X12. A filter whose window is an integer not above 0 keeps nothing: it
    is empty after every call and every output is [NaN]. *)
Theorem nonpositive_window_returns_nan (z : Z) (inputs : list number) :
  (z <= 0)%Z ->
  feed (fresh (Fin (IZR z))) inputs
  = (fresh (Fin (IZR z)), map (fun _ => NaN) inputs).
Proof.
  intros Hz. induction inputs as [| x xs IH]; [reflexivity |].
  rewrite feed_cons, (process_with_nonpositive_window z x Hz). cbn [fst snd].
  rewrite IH. reflexivity.
Qed.

Lemma nonpositive_window_returns_nan_witness :
  feed (fresh (Fin (IZR 0))) [Fin 10; Fin 12]
  = (fresh (Fin (IZR 0)), map (fun _ => NaN) [Fin 10; Fin 12]).
Proof.
  apply (nonpositive_window_returns_nan 0 [Fin 10; Fin 12]). lia.
Defined.

Section FractionalWindow.

Lemma gt_fractional (w : R) (N m : nat) :
  INR N <= w < INR N + 1 ->
  gt (Fin (INR m)) (Fin w) = gt (Fin (INR m)) (Fin (INR N)).
Proof.
  intros floor_of_w. rewrite gt_lengths. destruct (Nat.ltb_spec N m) as [H | H].
  - apply gt_fin. apply lt_INR in H.
    assert (INR N + 1 <= INR m).
    { rewrite <- S_INR. apply le_INR. apply INR_lt in H. lia. }
    lra.
  - destruct (gt (Fin (INR m)) (Fin w)) eqn:E; [| reflexivity].
    apply gt_fin in E. apply le_INR in H. lra.
Qed.

Lemma process_fractional (w : R) (N : nat) (vs : list number) (v : number) :
  INR N <= w < INR N + 1 ->
  values (fst (process {| windowSize := Fin w; values := vs |} v))
  = values (fst (process {| windowSize := Fin (INR N); values := vs |} v))
  /\ snd (process {| windowSize := Fin w; values := vs |} v)
     = snd (process {| windowSize := Fin (INR N); values := vs |} v).
Proof.
  intros floor_of_w.
  unfold process. cbn [fst snd values windowSize]. unfold length_of.
  rewrite (gt_fractional w N _ floor_of_w). split; reflexivity.
Qed.

Lemma feed_fractional (w : R) (N : nat) (vs : list number)
    (xs : list number) :
  INR N <= w < INR N + 1 ->
  values (fst (feed {| windowSize := Fin w; values := vs |} xs))
  = values (fst (feed {| windowSize := Fin (INR N); values := vs |} xs))
  /\ snd (feed {| windowSize := Fin w; values := vs |} xs)
     = snd (feed {| windowSize := Fin (INR N); values := vs |} xs).
Proof.
  intros floor_of_w. revert vs. induction xs as [| x xs IH]; intros vs.
  - split; reflexivity.
  - rewrite !feed_cons. cbn [fst snd].
    destruct (process_fractional w N vs x floor_of_w) as [Hv Ho].
    destruct (process {| windowSize := Fin w; values := vs |} x)
      as [[w1 vs1] o1] eqn:E1.
    destruct (process {| windowSize := Fin (INR N); values := vs |} x)
      as [[w2 vs2] o2] eqn:E2.
    assert (Hw1 : w1 = Fin w).
    { change w1 with (windowSize (fst ({| windowSize := w1; values := vs1 |}, o1))).
      rewrite <- E1. apply process_windowSize. }
    assert (Hw2 : w2 = Fin (INR N)).
    { change w2 with (windowSize (fst ({| windowSize := w2; values := vs2 |}, o2))).
      rewrite <- E2. apply process_windowSize. }
    cbn [fst snd values] in *. subst w1 w2 vs2 o2.
    destruct (IH vs1) as [IHv IHo]. rewrite IHv, IHo. split; reflexivity.
Qed.

End FractionalWindow.

(** X13. A window size that is not an integer acts as its integer part: for
    [N <= w < N + 1] a filter with window [w] holds the same values and
    returns the same outputs as a filter with window [N]. *)
Theorem fractional_window_acts_as_its_integer_part (w : R) (N : nat)
    (inputs : list number) :
  INR N <= w < INR N + 1 ->
  values (fst (feed (fresh (Fin w)) inputs))
  = values (fst (feed (fresh (Fin (INR N))) inputs))
  /\ snd (feed (fresh (Fin w)) inputs)
     = snd (feed (fresh (Fin (INR N))) inputs).
Proof.
  intros H. apply (feed_fractional w N [] inputs H).
Qed.

Lemma fractional_window_acts_as_its_integer_part_witness :
  values (fst (feed (fresh (Fin 2.5)) [Fin 1; Fin 2; Fin 3]))
  = values (fst (feed (fresh (Fin (INR 2))) [Fin 1; Fin 2; Fin 3]))
  /\ snd (feed (fresh (Fin 2.5)) [Fin 1; Fin 2; Fin 3])
     = snd (feed (fresh (Fin (INR 2))) [Fin 1; Fin 2; Fin 3]).
Proof.
  apply (fractional_window_acts_as_its_integer_part 2.5 2
           [Fin 1; Fin 2; Fin 3]).
  simpl. lra.
Defined.

(** ** Further behaviour of the statistics helper and the outlier test *)

(** X14. On an empty array [calculateStats] does not fail: the mean and the
    standard deviation are both [NaN] (0 / 0), and [isOutlier] against them
    is false for every value. *)
Theorem calculateStats_of_nothing_is_nan :
  calculateStats [] = {| mean := NaN; stdDev := NaN |}
  /\ forall value : number,
       isOutlier value (mean (calculateStats [])) (stdDev (calculateStats []))
       = false.
Proof.
  assert (E : calculateStats [] = {| mean := NaN; stdDev := NaN |}).
  { unfold calculateStats, reduce, length_of. cbn [fold_left List.length INR].
    rewrite div_zero_by_zero. reflexivity. }
  split; [exact E |]. intros value. rewrite E. cbn [mean stdDev].
  unfold isOutlier, isOutlier_with. destruct value; reflexivity.
Qed.

(** X16. With a standard deviation of 0, finite value and mean and any
    finite threshold, [isOutlier] is true exactly when the value differs
    from the mean: the deviation divided by 0 is an infinity, which exceeds
    the threshold, and only 0 / 0 is [NaN]. *)
Theorem isOutlier_with_zero_deviation (value m t : R) :
  (isOutlier_with (Fin value) (Fin m) (Fin 0) (Fin t) = true <-> value <> m)
  /\ (isOutlier (Fin value) (Fin m) (Fin 0) = true <-> value <> m).
Proof.
  assert (H : forall u : R,
            isOutlier_with (Fin value) (Fin m) (Fin 0) (Fin u) = true
            <-> value <> m).
  { intros u. unfold isOutlier_with. cbn [sub neg add]. unfold div.
    destruct (Req_dec_T 0 0) as [_ | N]; [| exfalso; apply N; reflexivity].
    destruct (Req_dec_T (value + - m) 0) as [E | NE].
    - cbn. split; [discriminate | intros Hne; exfalso; apply Hne; lra].
    - unfold inf_of_sign. destruct (Rlt_dec 0 (value + - m)); cbn;
        (split; [intros _ Heq; apply NE; lra | reflexivity]). }
  split; [apply H | apply (H 3)].
Qed.

(** ** Which calibration row is used *)

Section LatestRow.

Lemma in_insert_desc (r x : CalibrationRow) (l : list CalibrationRow) :
  In x (Query.insert_desc r l) <-> x = r \/ In x l.
Proof.
  induction l as [| a l IH]; cbn [Query.insert_desc].
  - split; [intros [<- | []]; auto | intros [-> | []]; left; reflexivity].
  - destruct (Z.leb (created_at a) (created_at r)).
    + cbn [In]. intuition congruence.
    + cbn [In]. rewrite IH. intuition congruence.
Qed.

Lemma in_order_created_at_desc (x : CalibrationRow) (l : list CalibrationRow) :
  In x (Query.order_created_at_desc l) <-> In x l.
Proof.
  unfold Query.order_created_at_desc. induction l as [| a l IH]; cbn [fold_right].
  - reflexivity.
  - rewrite in_insert_desc, IH. cbn [In]. intuition congruence.
Qed.

Lemma insert_desc_head_is_latest (r : CalibrationRow) (l : list CalibrationRow) :
  head_is_latest l -> head_is_latest (Query.insert_desc r l).
Proof.
  destruct l as [| h rest]; cbn [Query.insert_desc head_is_latest].
  - intros _ x [].
  - intros H. destruct (Z.leb_spec (created_at h) (created_at r)) as [L | L].
    + cbn [head_is_latest]. intros x [<- | Hx]; [assumption |].
      specialize (H x Hx). lia.
    + cbn [head_is_latest]. intros x Hx. apply in_insert_desc in Hx.
      destruct Hx as [-> | Hx]; [lia | now apply H].
Qed.

Lemma order_head_is_latest (l : list CalibrationRow) :
  head_is_latest (Query.order_created_at_desc l).
Proof.
  unfold Query.order_created_at_desc. induction l as [| a l IH]; cbn [fold_right].
  - exact I.
  - now apply insert_desc_head_is_latest.
Qed.

End LatestRow.

(** X18. When the store is reachable, [processSensorData] calibrates with the
    row of [sensor_calibration] that belongs to the sensor and was created
    last, whatever rows other sensors have; without any row for the sensor it
    uses the identity calibration. *)
Theorem latest_calibration_row_of_the_sensor_is_used
    (table : list CalibrationRow) (rawData : RawSensorData) (sensorId : Z) :
  ((forall r, In r table -> sensor_id r <> sensorId) ->
   processSensorData (Reachable table) rawData sensorId
   = async (process_with identity_calibration rawData))
  /\ ((exists r, In r table /\ sensor_id r = sensorId) ->
      exists row,
        In row table
        /\ sensor_id row = sensorId
        /\ (forall other, In other table -> sensor_id other = sensorId ->
              (created_at other <= created_at row)%Z)
        /\ processSensorData (Reachable table) rawData sensorId
           = async (process_with
                      {| cal_offset_value := offset_value row;
                         cal_scale_factor := scale_factor row |} rawData)).
Proof.
  split.
  - intros Hnone. apply zero_rows_give_identity_calibration.
    unfold Query.eq_sensor_id.
    destruct (filter _ table) as [| x rest] eqn:E; [reflexivity |].
    assert (Hx : In x (filter (fun r => Z.eqb (sensor_id r) sensorId) table))
      by (rewrite E; left; reflexivity).
    apply filter_In in Hx. destruct Hx as [Hin Hid].
    apply Z.eqb_eq in Hid. exfalso. exact (Hnone x Hin Hid).
  - intros [r [Hr Hid]].
    assert (Hf : In r (Query.eq_sensor_id sensorId table)).
    { apply filter_In. split; [exact Hr | now apply Z.eqb_eq]. }
    pose proof (order_head_is_latest (Query.eq_sensor_id sensorId table)) as Hl.
    apply in_order_created_at_desc in Hf.
    destruct (Query.order_created_at_desc (Query.eq_sensor_id sensorId table))
      as [| h rest] eqn:E; [contradiction |].
    assert (Hh : In h (Query.eq_sensor_id sensorId table)).
    { apply in_order_created_at_desc. rewrite E. left. reflexivity. }
    apply filter_In in Hh. destruct Hh as [Hh_in Hh_id]. apply Z.eqb_eq in Hh_id.
    exists h. split; [exact Hh_in |]. split; [exact Hh_id |]. split.
    + intros other Ho Hoid.
      assert (Hof : In other (Query.order_created_at_desc
                                (Query.eq_sensor_id sensorId table))).
      { apply in_order_created_at_desc. apply filter_In.
        split; [exact Ho | now apply Z.eqb_eq]. }
      rewrite E in Hof. destruct Hof as [<- | Hrest]; [lia |].
      exact (Hl other Hrest).
    + unfold processSensorData, Query.latest_calibration. rewrite E.
      reflexivity.
Qed.

Lemma latest_calibration_row_of_the_sensor_is_used_witness :
  exists row,
    sensor_id row = 7%Z
    /\ created_at row = 30%Z
    /\ processSensorData
         (Reachable
            [{| id := 1; created_at := 10; sensor_id := 7; parameter := "depth";
                offset_value := Fin 1; scale_factor := Fin 2 |};
             {| id := 2; created_at := 30; sensor_id := 7; parameter := "depth";
                offset_value := Fin 3; scale_factor := Fin 4 |};
             {| id := 3; created_at := 40; sensor_id := 8; parameter := "depth";
                offset_value := Fin 5; scale_factor := Fin 6 |}])
         sample_reading 7
       = async (process_with
                  {| cal_offset_value := offset_value row;
                     cal_scale_factor := scale_factor row |} sample_reading).
Proof.
  destruct (latest_calibration_row_of_the_sensor_is_used
              [{| id := 1; created_at := 10; sensor_id := 7; parameter := "depth";
                  offset_value := Fin 1; scale_factor := Fin 2 |};
               {| id := 2; created_at := 30; sensor_id := 7; parameter := "depth";
                  offset_value := Fin 3; scale_factor := Fin 4 |};
               {| id := 3; created_at := 40; sensor_id := 8; parameter := "depth";
                  offset_value := Fin 5; scale_factor := Fin 6 |}]
              sample_reading 7) as [_ H].
  destruct H as [row [Hin [Hid [Hlatest Hp]]]].
  - eexists. split; [left; reflexivity | reflexivity].
  - exists row. split; [exact Hid |]. split; [| exact Hp].
    destruct Hin as [<- | [<- | [<- | []]]].
    + exfalso.
      assert (H30 : (30 <= 10)%Z).
      { apply (Hlatest
                 {| id := 2; created_at := 30; sensor_id := 7;
                    parameter := "depth";
                    offset_value := Fin 3; scale_factor := Fin 4 |}).
        - right. left. reflexivity.
        - reflexivity. }
      lia.
    + reflexivity.
    + discriminate Hid.
Defined.

(** ** The quality score below the cap *)

(** X19. The quality score is capped at 1 but not clamped at 0: for finite
    signal strength and battery level it is a finite value at most 1, and it
    is negative as soon as the signal strength is at most -1 and the battery
    level at most 0; when either input is [NaN] the score is [NaN]. *)
Theorem quality_score_is_not_clamped_below (supabase : Supabase)
    (rawData : RawSensorData) (sensorId : Z) :
  exists out,
    processSensorData supabase rawData sensorId = Resolved out
    /\ (forall s b : R,
          signal_strength rawData = Fin s -> battery_level rawData = Fin b ->
          exists q : R,
            quality_score out = Fin q /\ q <= 1
            /\ (s <= -1 -> b <= 0 -> q < -0.006))
    /\ (signal_strength rawData = NaN \/ battery_level rawData = NaN ->
        quality_score out = NaN).
Proof.
  destruct (processSensorData_unfold supabase rawData sensorId) as [resp [_ E]].
  rewrite E, process_with_unfold. cbn [async]. eexists.
  split; [reflexivity |]. cbn [quality_score]. split.
  - intros s b -> ->. rewrite !div_fin by lra. cbn [mul add Math_min].
    eexists. split; [reflexivity |]. split; [apply Rmin_l |].
    intros Hs Hb.
    apply Rle_lt_trans with (s / 100 * 0.7 + b / 100 * 0.3);
      [apply Rmin_r | lra].
  - intros [-> | ->].
    + reflexivity.
    + destruct (div (signal_strength rawData) (Fin 100)) as [x | | |];
        cbn [mul]; try reflexivity;
        destruct (Req_dec_T 0.7 0); try reflexivity;
        destruct (inf_of_sign _); reflexivity.
Qed.

Lemma quality_score_is_not_clamped_below_witness :
  exists out q,
    processSensorData (Reachable [])
      {| raw_depth := Fin 100; raw_turbidity := Fin 5; raw_temperature := Fin 20;
         voltage := Fin 12; battery_level := Fin 0;
         signal_strength := Fin (- 100) |} 1 = Resolved out
    /\ quality_score out = Fin q /\ q < -0.006.
Proof.
  destruct (quality_score_is_not_clamped_below (Reachable [])
              {| raw_depth := Fin 100; raw_turbidity := Fin 5;
                 raw_temperature := Fin 20; voltage := Fin 12;
                 battery_level := Fin 0; signal_strength := Fin (- 100) |} 1)
    as [out [E [F _]]].
  destruct (F (- 100) 0 eq_refl eq_refl) as [q [Hq [_ Hneg]]].
  exists out, q. split; [exact E |]. split; [exact Hq |].
  apply Hneg; lra.
Defined.
